(** * astro-charts: the star-chart builder of [solar_system_plot.py]

    A shallow embedding of [plot_solar_sys_objects]: the brightness mask
    and marker sizes of the background stars, the periodic segmentation
    of constellation lines, the frame selection and the motion vectors
    of the solar-system bodies.

    Numbers.  The program computes on numpy [float64] values.  They are
    modelled here by the real numbers [R] with exact arithmetic: [+], [-],
    [** 2.0] and [np.sqrt] are the real operations, and [>] and [<=] the
    real orders.  Rounding, infinities and NaN are outside the model.

    [Float64] repeats the line segmenter on IEEE binary64 numbers, the
    arithmetic numpy runs, so that concrete lines can be evaluated bit for
    bit; the general statements are proved in the real model.  A
    statement that is meant of the binary64 program too uses each sum
    and difference as the program computes it, without cancelling, and
    keeps a margin around the ties of the distance tests; where a law
    of the real model fails on binary64, a lemma on [Float64] shows the
    input. *)

From Stdlib Require Import Floats.
From Stdlib Require Import Reals Lra Psatz ZArith String List.
From stdpp Require Import base option list gmap.

#[local] Open Scope R_scope.

(** ** Points and lines

    A row of [lines_xy] is a pair of end points, each a numpy array
    [[lon, lat]]. *)

Module Geometry.

Definition point : Type := R * R.
Definition line : Type := point * point.

Definition lon (p : point) : R := p.1.
Definition lat (p : point) : R := p.2.

(** Elementwise numpy arithmetic on arrays of two elements. *)
Definition padd (p q : point) : point := (p.1 + q.1, p.2 + q.2).
Definition psub (p q : point) : point := (p.1 - q.1, p.2 - q.2).
Definition psquare (p : point) : point := (p.1 ^ 2, p.2 ^ 2).
Definition psum (p : point) : R := p.1 + p.2.

(** [def dist(a, b): return np.sqrt(np.sum((a - b)**2.0))] *)
Definition dist (a b : point) : R := sqrt (psum (psquare (psub a b))).

(** [x_max = 360 if ecliptic_coords else 24] *)
Definition x_max (ecliptic_coords : bool) : R :=
  if ecliptic_coords then 360 else 24.

(** The body of the loop over [lines_xy]: the lines appended to
    [lines_xy_mod] for one input line. *)
Definition segment_line (x_max : R) (line : line) : list Geometry.line :=
  if Rgt_dec (dist line.1 line.2) (dist (padd line.1 (x_max, 0)) line.2) then
    [ (padd line.1 (x_max, 0), line.2);
      (line.1, psub line.2 (x_max, 0)) ]
  else if Rgt_dec (dist line.1 line.2) (dist line.1 (padd line.2 (x_max, 0))) then
    [ (psub line.1 (x_max, 0), line.2);
      (line.1, padd line.2 (x_max, 0)) ]
  else
    [ (line.1, line.2) ].

(** [lines_xy_mod = []; for line in lines_xy: ...append...] *)
Definition lines_xy_mod (x_max : R) (lines_xy : list line) : list line :=
  foldl (fun acc line => acc ++ segment_line x_max line) [] lines_xy.

(** The three distances the loop compares. *)
Definition d_plain (x_max : R) (l : line) : R := dist l.1 l.2.
Definition d_shift_right (x_max : R) (l : line) : R :=
  dist (padd l.1 (x_max, 0)) l.2.
Definition d_shift_left (x_max : R) (l : line) : R :=
  dist l.1 (padd l.2 (x_max, 0)).

(** Which arm of the [if]/[elif]/[else] runs. *)
Inductive branch : Set := shift_right | shift_left | no_wrap.

Definition wrap_branch (x_max : R) (line : line) : branch :=
  if Rgt_dec (dist line.1 line.2) (dist (padd line.1 (x_max, 0)) line.2) then
    shift_right
  else if Rgt_dec (dist line.1 line.2) (dist line.1 (padd line.2 (x_max, 0))) then
    shift_left
  else
    no_wrap.

(** What each arm appends. *)
Definition emitted (x_max : R) (l : line) (b : branch) : list line :=
  match b with
  | shift_right =>
      [ (padd l.1 (x_max, 0), l.2); (l.1, psub l.2 (x_max, 0)) ]
  | shift_left =>
      [ (psub l.1 (x_max, 0), l.2); (l.1, padd l.2 (x_max, 0)) ]
  | no_wrap => [ l ]
  end.

(** Translation of a whole line by a vector. *)
Definition translate (v : point) (l : line) : line := (padd l.1 v, padd l.2 v).

(** [x] is strictly below both [y] and [z]. *)
Definition strictly_smallest (x y z : R) : Prop := x < y /\ x < z.

End Geometry.

(** ** The segmenter on binary64

    The same loop body on Rocq's primitive floats.  [x ** 2.0] is the
    rounded product [x * x], the sum of two squares one rounded addition,
    and [np.sqrt] the correctly rounded square root. *)

Module Float64.

Definition point : Type := float * float.
Definition line : Type := point * point.

Definition padd (p q : point) : point := (p.1 + q.1, p.2 + q.2)%float.
Definition psub (p q : point) : point := (p.1 - q.1, p.2 - q.2)%float.
Definition psquare (p : point) : point := (p.1 * p.1, p.2 * p.2)%float.
Definition psum (p : point) : float := (p.1 + p.2)%float.

Definition dist (a b : point) : float :=
  PrimFloat.sqrt (psum (psquare (psub a b))).

(** [a > b] on floats. *)
Definition gtb (a b : float) : bool := PrimFloat.ltb b a.

Definition x_max (ecliptic_coords : bool) : float :=
  if ecliptic_coords then 360%float else 24%float.

Definition segment_line (x_max : float) (line : line) : list Float64.line :=
  if gtb (dist line.1 line.2) (dist (padd line.1 (x_max, 0%float)) line.2) then
    [ (padd line.1 (x_max, 0%float), line.2);
      (line.1, psub line.2 (x_max, 0%float)) ]
  else if gtb (dist line.1 line.2) (dist line.1 (padd line.2 (x_max, 0%float))) then
    [ (psub line.1 (x_max, 0%float), line.2);
      (line.1, padd line.2 (x_max, 0%float)) ]
  else
    [ (line.1, line.2) ].

Definition lines_xy_mod (x_max : float) (lines_xy : list line) : list line :=
  foldl (fun acc line => acc ++ segment_line x_max line) [] lines_xy.

Definition lon (p : point) : float := p.1.
Definition lat (p : point) : float := p.2.

(** Translation of a whole line by a vector. *)
Definition translate (v : point) (l : line) : line := (padd l.1 v, padd l.2 v).

End Float64.

(** ** Background stars: the brightness mask and the marker sizes

    [stars] is the Hipparcos data frame, indexed by the catalogue number
    of each star; only its [magnitude] column matters here.  A pandas
    series indexed by those numbers is a finite map from them. *)

Module Stars.

#[global] Instance Rle_decision (x y : R) : Decision (x <= y) := Rle_dec x y.

(** [edges = [edge for name, edges in constellations for edge in edges]] *)
Definition edges (constellations : list (string * list (Z * Z))) : list (Z * Z) :=
  flat_map (fun c => c.2) constellations.

(** [edges_star1 = [star1 for star1, star2 in edges]] and
    [edges_star2 = [star2 for star1, star2 in edges]] *)
Definition edges_star1 (edges : list (Z * Z)) : list Z := map (fun e => e.1) edges.
Definition edges_star2 (edges : list (Z * Z)) : list Z := map (fun e => e.2) edges.

(** [bright_stars = (stars.magnitude <= limiting_magnitude)] *)
Definition bright_stars (limiting_magnitude : R) (magnitude : gmap Z R) : gmap Z bool :=
  (fun m => bool_decide (m <= limiting_magnitude)) <$> magnitude.

(** [series[labels] = True] for a list of labels: pandas raises [KeyError]
    ([None] here) when a label is not in the index, and otherwise sets the
    entry of every listed label. *)
Definition set_true (labels : list Z) (series : gmap Z bool) : option (gmap Z bool) :=
  if forallb (fun i => bool_decide (is_Some (series !! i))) labels
  then Some (foldl (fun s i => <[i := true]> s) series labels)
  else None.

(** Lines 59 to 63: the mask of the stars that are drawn. *)
Definition inclusion_mask (limiting_magnitude : R) (magnitude : gmap Z R)
    (constellations : list (string * list (Z * Z))) : option (gmap Z bool) :=
  let edges := edges constellations in
  mask ← set_true (edges_star1 edges) (bright_stars limiting_magnitude magnitude);
  set_true (edges_star2 edges) mask.

(** [series[mask]]: the entries of a series that a boolean mask selects. *)
Definition select (mask : gmap Z bool) (series : gmap Z R) : gmap Z R :=
  filter (fun kv => mask !! kv.1 = Some true) series.

(** One element of [(1.5 + limiting_magnitude - magnitude) ** 2.0]. *)
Definition size_of (limiting_magnitude m : R) : R :=
  (1.5 + limiting_magnitude - m) ^ 2.

(** [magnitude = stars['magnitude'][bright_stars]] and
    [marker_size = (1.5 + limiting_magnitude - magnitude) ** 2.0] *)
Definition marker_size (limiting_magnitude : R) (magnitude : gmap Z R)
    (mask : gmap Z bool) : gmap Z R :=
  size_of limiting_magnitude <$> select mask magnitude.

(** A star of the catalogue is an end point of a constellation edge. *)
Definition edge_endpoint (constellations : list (string * list (Z * Z))) (i : Z) : Prop :=
  exists e, e ∈ edges constellations /\ (e.1 = i \/ e.2 = i).

End Stars.

(** ** The frame selector

    [ecliptic_coords] is documented as a bool, but Python passes any
    object; every use of it is a truth test. *)

Module Frame.

Inductive pyval : Type :=
| PyNone
| PyBool (b : bool)
| PyInt (z : Z)
| PyStr (s : string).

(** Python's truth value of an object. *)
Definition truthy (v : pyval) : bool :=
  match v with
  | PyNone => false
  | PyBool b => b
  | PyInt z => negb (Z.eqb z 0)
  | PyStr s => match s with EmptyString => false | String _ _ => true end
  end.

(** The selectors the docstring names. *)
Definition recognized (v : pyval) : Prop := exists b, v = PyBool b.

(** The error kinds the specification lists; the program itself has no
    [raise] statement. *)
Inductive error : Set := DataUnavailable | UnknownObject | InvalidFrame.

Inductive outcome (A : Type) : Type :=
| Returned (a : A)
| Raised (e : error).
Arguments Returned {A} a.
Arguments Raised {A} e.

(** What the build sets on the axis from the selector: lines 99, 119,
    120, 192 to 197 and 202 to 205. *)
Record axis_setup : Type := {
  period : R;
  xlim : R * R;
  aspect : R;
  xlabel : string;
  ylabel : string;
  xticks : list Z
}.

(** [np.arange(start, stop, step)] on integers, [step > 0]. *)
Definition arange (start stop step : Z) : list Z :=
  map (fun k => (start + Z.of_nat k * step)%Z)
      (seq 0 (Z.to_nat ((stop - start + step - 1) / step))).

Definition frame_setup (ecliptic_coords : pyval) : outcome axis_setup :=
  let x_max := if truthy ecliptic_coords then 360 else 24 in
  Returned {|
    period := x_max;
    xlim := (x_max, 0);
    aspect := x_max / 360;
    xlabel := if truthy ecliptic_coords
              then "Ecliptic Latitude (degrees)" else "Right Ascension (hours)";
    ylabel := if truthy ecliptic_coords
              then "Ecliptic Longitude (degrees)" else "Declination (degrees)";
    xticks := if truthy ecliptic_coords
              then arange 0 361 30 else arange 0 25 2
  |}.

End Frame.

(** ** Solar-system bodies: positions and motion vectors

    The ephemeris is the library's; [observe t obj] stands for
    [earth.at(t).observe(eph[obj])], and [t + 7] is seven days later. *)

Module Bodies.

(** A skyfield angle, by its value in degrees. *)
Record angle : Type := { degrees : R }.
Definition hours (a : angle) : R := degrees a / 15.

(** An apparent position: [ecliptic_latlon()[:2]] is [(lat, lon)] and
    [radec()[:2]] is [(ra, dec)]. *)
Record position : Type := {
  ecliptic_latlon : angle * angle;
  radec : angle * angle
}.

Section Ephemeris.

Variable observe : R -> string -> position.

(** Lines 156 to 165: where the marker of a body is drawn. *)
Definition marker_xy (ecliptic_coords : bool) (t : R) (obj : string) : R * R :=
  let obj_pos := observe t obj in
  if ecliptic_coords then
    let '(ecl_lat, ecl_lon) := ecliptic_latlon obj_pos in
    (degrees ecl_lon, degrees ecl_lat)
  else
    let '(ra, dec) := radec obj_pos in
    (hours ra, degrees dec).

(** Lines 172 to 183: [(lon_delta, lat_delta)]. *)
Definition motion_vector (ecliptic_coords : bool) (t : R) (obj : string) : R * R :=
  let obj_pos := observe t obj in
  let obj_pos1 := observe (t + 7) obj in
  if ecliptic_coords then
    let '(ecl_lat, ecl_lon) := ecliptic_latlon obj_pos in
    let '(ecl_lat1, ecl_lon1) := ecliptic_latlon obj_pos1 in
    let lat_delta := degrees ecl_lat1 - degrees ecl_lat in
    let lon_delta := degrees ecl_lon1 - degrees ecl_lon in
    (lon_delta, lat_delta)
  else
    let '(ra, dec) := radec obj_pos in
    let '(ra1, dec1) := radec obj_pos1 in
    let lat_delta := degrees dec1 - degrees dec in
    let lon_delta := hours ra1 - hours ra in
    (lon_delta, lat_delta).

(** Lines 185 and 186: [(x1, y1)], the other end of the arrow. *)
Definition arrow_end (ecliptic_coords : bool) (t : R) (obj : string) : R * R :=
  let '(x, y) := marker_xy ecliptic_coords t obj in
  let '(lon_delta, lat_delta) := motion_vector ecliptic_coords t obj in
  (x + lon_delta, y + lat_delta).

End Ephemeris.

(** A sample ephemeris: every body is seen on the ecliptic at longitude
    359 up to time 0 and at longitude 2 afterwards. *)
Definition crossing (t : R) (obj : string) : position :=
  {| ecliptic_latlon := ({| degrees := 0 |},
                         {| degrees := if Rle_dec t 0 then 359 else 2 |});
     radec := ({| degrees := 0 |}, {| degrees := 0 |}) |}.

(** The keys of [objs], in the order of the dictionary. *)
Definition objs : list string :=
  [ "sun"; "moon"; "mercury"; "venus"; "mars"; "jupiter_barycenter";
    "saturn_barycenter"; "uranus_barycenter"; "neptune_barycenter" ]%string.

(** [obj in ['mercury', 'venus', 'sun']]: the bodies that get an arrow. *)
Definition has_arrow (obj : string) : bool :=
  bool_decide (obj ∈ [ "mercury"; "venus"; "sun" ]%string).

End Bodies.

(** ** The chart: star layer, reference curve and body layer

    The parts of [plot_solar_sys_objects] around the pieces above: the
    coordinate columns of the stars, the constellation lines built from
    them, what is handed to [scatter] and [LineCollection], the curve of
    the ecliptic and the loop over [objs]. *)

Module Chart.

#[global] Instance branch_eq_dec : EqDecision Geometry.branch.
Proof. solve_decision. Defined.

(** A row of [stars]: its [magnitude] and the entry of [star_positions]
    for it. *)
Record star : Type := {
  magnitude : R;
  apparent : Bodies.position
}.

(** Lines 73 to 80: [(lon_deg, lat_deg)] of a star. *)
Definition star_xy (ecliptic_coords : bool) (pos : Bodies.position) : Geometry.point :=
  if ecliptic_coords then
    let '(ecl_lat, ecl_lon) := Bodies.ecliptic_latlon pos in
    (Bodies.degrees ecl_lon, Bodies.degrees ecl_lat)
  else
    let '(ra, dec) := Bodies.radec pos in
    (Bodies.hours ra, Bodies.degrees dec).

(** [stars['magnitude']] and [stars[['lon_deg', 'lat_deg']]]. *)
Definition magnitudes (stars : gmap Z star) : gmap Z R := magnitude <$> stars.
Definition lon_lat (ecliptic_coords : bool) (stars : gmap Z star) : gmap Z Geometry.point :=
  (fun s => star_xy ecliptic_coords (apparent s)) <$> stars.

(** [frame.loc[labels].values]: the rows of the listed labels, in the
    order of the list; a label that is not in the index is a [KeyError]. *)
Definition loc {A : Type} (labels : list Z) (frame : gmap Z A) : option (list A) :=
  mapM (fun i => frame !! i) labels.

(** Lines 86 to 92: row [k] of [lines_xy] is [[xy1[k], xy2[k]]]. *)
Definition lines_xy (ecliptic_coords : bool) (stars : gmap Z star)
    (edges : list (Z * Z)) : option (list Geometry.line) :=
  xy1 ← loc (Stars.edges_star1 edges) (lon_lat ecliptic_coords stars);
  xy2 ← loc (Stars.edges_star2 edges) (lon_lat ecliptic_coords stars);
  Some (zip xy1 xy2).

(** A line joins the plotted positions of the two stars of an edge. *)
Definition joins (ecliptic_coords : bool) (stars : gmap Z star) (e : Z * Z)
    (l : Geometry.line) : Prop :=
  exists sa sb, stars !! e.1 = Some sa /\ stars !! e.2 = Some sb /\
                l = (star_xy ecliptic_coords (apparent sa),
                     star_xy ecliptic_coords (apparent sb)).

(** [series[bright_stars]] for the coordinate columns. *)
Definition scatter_xy (ecliptic_coords : bool) (stars : gmap Z star)
    (mask : gmap Z bool) : gmap Z Geometry.point :=
  filter (fun kv => mask !! kv.1 = Some true) (lon_lat ecliptic_coords stars).

(** What lines 53 to 117 hand to [ax.scatter] and to [LineCollection]. *)
Record star_layer : Type := {
  points : gmap Z Geometry.point;
  sizes : gmap Z R;
  segments : list Geometry.line
}.

Definition draw_stars (ecliptic_coords : bool) (limiting_magnitude : R)
    (stars : gmap Z star) (constellations : list (string * list (Z * Z)))
    : option star_layer :=
  mask ← Stars.inclusion_mask limiting_magnitude (magnitudes stars) constellations;
  lines ← lines_xy ecliptic_coords stars (Stars.edges constellations);
  Some {|
    points := scatter_xy ecliptic_coords stars mask;
    sizes := Stars.marker_size limiting_magnitude (magnitudes stars) mask;
    segments := Geometry.lines_xy_mod (Geometry.x_max ecliptic_coords) lines
  |}.

(** [range(start, stop)] *)
Definition py_range (start stop : Z) : list Z :=
  map (fun k => (start + Z.of_nat k)%Z) (seq 0 (Z.to_nat (stop - start))).

(** [idx_arr] sorts [keys]: the contract of [np.argsort], whose order
    among equal keys is not fixed. *)
Definition is_argsort (keys : list R) (idx_arr : list nat) : Prop :=
  idx_arr ≡ₚ seq 0 (length keys) /\
  forall i j a b ka kb,
    (i <= j)%nat -> idx_arr !! i = Some a -> idx_arr !! j = Some b ->
    keys !! a = Some ka -> keys !! b = Some kb -> ka <= kb.

(** [line[idx_arr]]: an index out of range is an [IndexError]. *)
Definition take_rows (idx_arr : list nat) (line : list Geometry.point)
    : option (list Geometry.point) :=
  mapM (fun i => line !! i) idx_arr.

(** What is drawn for the ecliptic: [axhline(0)] or a curve. *)
Inductive reference : Type :=
| Horizontal (y : R)
| Curve (pts : list Geometry.point).

Section Ephemeris.

Variable observe : R -> string -> Bodies.position.

(** Lines 139 to 147: the Sun on each of 380 days around [t]. *)
Definition sun_line (t : R) : list Geometry.point :=
  map (fun ofst =>
         let obj_pos := observe (t + IZR ofst) "sun" in
         let '(ra, dec) := Bodies.radec obj_pos in
         (Bodies.hours ra, Bodies.degrees dec))
      (py_range (-190) 190).

(** Lines 136 to 149, with [idx_arr] the result of [np.argsort]. *)
Definition reference_curve (ecliptic_coords : bool) (t : R) (idx_arr : list nat)
    : option reference :=
  if ecliptic_coords then Some (Horizontal 0)
  else Curve <$> take_rows idx_arr (sun_line t).

(** Lines 153 to 170: one marker and one label per entry of [objs]. *)
Definition body_markers (ecliptic_coords : bool) (t : R)
    : list (string * Geometry.point) :=
  map (fun obj => (obj, Bodies.marker_xy observe ecliptic_coords t obj)) Bodies.objs.

(** Lines 188 to 190: [(xy, xytext)] of each [ax.annotate]. *)
Definition body_arrows (ecliptic_coords : bool) (t : R)
    : list (Geometry.point * Geometry.point) :=
  flat_map (fun obj =>
              if Bodies.has_arrow obj
              then [ (Bodies.marker_xy observe ecliptic_coords t obj,
                      Bodies.arrow_end observe ecliptic_coords t obj) ]
              else [])
           Bodies.objs.

End Ephemeris.

(** A point within the range of the x axis. *)
Definition in_chart (P : R) (p : Geometry.point) : Prop := 0 <= Geometry.lon p < P.

(** A small catalogue for examples: two stars on the ecliptic, ten
    degrees either side of the boundary, joined by one edge. *)
Definition at_longitude (d : R) : Bodies.position :=
  {| Bodies.ecliptic_latlon := ({| Bodies.degrees := 0 |}, {| Bodies.degrees := d |});
     Bodies.radec := ({| Bodies.degrees := d |}, {| Bodies.degrees := 0 |}) |}.

Definition sample_stars : gmap Z star :=
  {[ 1%Z := {| magnitude := 2; apparent := at_longitude 350 |};
     2%Z := {| magnitude := 5; apparent := at_longitude 10 |} ]}.

Definition sample_constellations : list (string * list (Z * Z)) :=
  [ ("Psc"%string, [ (1%Z, 2%Z) ]) ].

(** A sample ephemeris whose right ascension falls by half a degree a
    day, from 180 degrees at time 0. *)
Definition receding (t : R) (obj : string) : Bodies.position :=
  {| Bodies.ecliptic_latlon := ({| Bodies.degrees := 0 |}, {| Bodies.degrees := 0 |});
     Bodies.radec := ({| Bodies.degrees := 180 - t / 2 |}, {| Bodies.degrees := 0 |}) |}.

(** A point whose latitude is a latitude or a declination. *)
Definition in_latitudes (p : Geometry.point) : Prop := -90 <= Geometry.lat p <= 90.

(** Longitudes that differ from half a period by less than this are
    told apart by the rounding of the distances, not by the test. *)
Definition margin : R := 1e-9.

End Chart.

(** * Properties *)

(** ** The periodic line segmenter *)

Module GeometryFacts.
Import Geometry.

(** [segment_line] appends what the arm chosen by [wrap_branch] emits. *)
Lemma segment_line_emitted (P : R) (l : line) :
  segment_line P l = emitted P l (wrap_branch P l).
Proof.
  unfold segment_line, wrap_branch.
  destruct (Rgt_dec _ _); [reflexivity|].
  destruct (Rgt_dec _ _); [reflexivity|].
  destruct l; reflexivity.
Qed.

(** The loop appends the segments of each line in turn. *)
Lemma lines_xy_mod_flat_map (P : R) (ls : list line) :
  lines_xy_mod P ls = flat_map (segment_line P) ls.
Proof.
  unfold lines_xy_mod.
  assert (H : forall acc, foldl (fun acc l => acc ++ segment_line P l) acc ls
                          = acc ++ flat_map (segment_line P) ls).
  { induction ls as [|l ls IH]; intros acc; simpl.
    - now rewrite app_nil_r.
    - now rewrite IH, <- app_assoc. }
  apply (H []).
Qed.

Lemma sum_squares_nonneg (x y : R) : 0 <= x ^ 2 + y ^ 2.
Proof. nra. Qed.

Lemma dist_unfold (a b : point) :
  dist a b = sqrt ((lon a - lon b) ^ 2 + (lat a - lat b) ^ 2).
Proof. reflexivity. Qed.

Lemma dist_nonneg (a b : point) : 0 <= dist a b.
Proof. apply sqrt_pos. Qed.

(** Comparing two distances is comparing the sums under the roots. *)
Lemma sqrt_gt_iff (x y : R) : 0 <= x -> 0 <= y -> (sqrt x > sqrt y <-> x > y).
Proof.
  intros Hx Hy; split; intros H.
  - apply sqrt_lt_0_alt in H. exact H.
  - apply sqrt_lt_1_alt. split; assumption.
Qed.

Lemma dist_gt_iff (a b c d : point) :
  dist a b > dist c d <->
  (lon a - lon b) ^ 2 + (lat a - lat b) ^ 2 >
  (lon c - lon d) ^ 2 + (lat c - lat d) ^ 2.
Proof. rewrite !dist_unfold. apply sqrt_gt_iff; apply sum_squares_nonneg. Qed.

Lemma dist_lt_iff (a b c d : point) :
  dist a b < dist c d <->
  (lon a - lon b) ^ 2 + (lat a - lat b) ^ 2 <
  (lon c - lon d) ^ 2 + (lat c - lat d) ^ 2.
Proof. apply (dist_gt_iff c d a b). Qed.

Lemma dist_le_iff (a b c d : point) :
  dist a b <= dist c d <->
  (lon a - lon b) ^ 2 + (lat a - lat b) ^ 2 <=
  (lon c - lon d) ^ 2 + (lat c - lat d) ^ 2.
Proof.
  pose proof (dist_gt_iff a b c d) as H. unfold Rgt in H.
  split; intros Hle.
  - apply Rnot_lt_le. intros Hlt. apply H in Hlt. lra.
  - apply Rnot_lt_le. intros Hlt. apply H in Hlt. lra.
Qed.

(** The two tests of the loop, as conditions on the longitudes alone. *)
Lemma right_test_iff (P : R) (p0 p1 : point) :
  0 < P ->
  (dist p0 p1 > dist (padd p0 (P, 0)) p1 <-> lon p0 - lon p1 < - (P / 2)).
Proof.
  intros HP. rewrite dist_gt_iff. destruct p0 as [x0 y0], p1 as [x1 y1].
  unfold lon, lat, padd; simpl. split; intros H; nra.
Qed.

Lemma left_test_iff (P : R) (p0 p1 : point) :
  0 < P ->
  (dist p0 p1 > dist p0 (padd p1 (P, 0)) <-> lon p0 - lon p1 > P / 2).
Proof.
  intros HP. rewrite dist_gt_iff. destruct p0 as [x0 y0], p1 as [x1 y1].
  unfold lon, lat, padd; simpl. split; intros H; nra.
Qed.

Lemma x_max_pos (ecliptic_coords : bool) : 0 < x_max ecliptic_coords.
Proof. destruct ecliptic_coords; simpl; lra. Qed.

Lemma wrap_branch_right_iff (P : R) (l : line) :
  0 < P -> (wrap_branch P l = shift_right <-> lon l.1 - lon l.2 < - (P / 2)).
Proof.
  intros HP. rewrite <- right_test_iff by exact HP.
  unfold wrap_branch.
  destruct (Rgt_dec _ _) as [H|H]; [tauto|].
  destruct (Rgt_dec _ _); split; (congruence || tauto).
Qed.

Lemma wrap_branch_left_iff (P : R) (l : line) :
  0 < P -> (wrap_branch P l = shift_left <-> lon l.1 - lon l.2 > P / 2).
Proof.
  intros HP. unfold wrap_branch.
  destruct (Rgt_dec _ _) as [H|H].
  - apply right_test_iff in H; [|exact HP]. split; [congruence | lra].
  - rewrite <- left_test_iff by exact HP.
    destruct (Rgt_dec _ _); split; (congruence || tauto).
Qed.

Lemma wrap_branch_none_iff (P : R) (l : line) :
  0 < P ->
  (wrap_branch P l = no_wrap <-> - (P / 2) <= lon l.1 - lon l.2 <= P / 2).
Proof.
  intros HP.
  pose proof (wrap_branch_right_iff P l HP) as HR.
  pose proof (wrap_branch_left_iff P l HP) as HL.
  destruct (wrap_branch P l) eqn:E; split; intros H; try congruence.
  - assert (lon l.1 - lon l.2 < - (P / 2)) by (apply HR; reflexivity). lra.
  - assert (lon l.1 - lon l.2 > P / 2) by (apply HL; reflexivity). lra.
  - split.
    + apply Rnot_lt_le. intros Hlt. apply HR in Hlt. congruence.
    + apply Rnot_lt_le. intros Hlt. apply HL in Hlt. congruence.
Qed.

(** The right-shifted distance is below the left-shifted one exactly when
    the first end point lies west of the second. *)
Lemma right_lt_left_iff (P : R) (p0 p1 : point) :
  0 < P ->
  (dist (padd p0 (P, 0)) p1 < dist p0 (padd p1 (P, 0)) <-> lon p0 - lon p1 < 0).
Proof.
  intros HP. rewrite dist_lt_iff. destruct p0 as [x0 y0], p1 as [x1 y1].
  unfold lon, lat, padd; simpl. split; intros H; nra.
Qed.

Lemma left_lt_right_iff (P : R) (p0 p1 : point) :
  0 < P ->
  (dist p0 (padd p1 (P, 0)) < dist (padd p0 (P, 0)) p1 <-> lon p0 - lon p1 > 0).
Proof.
  intros HP. rewrite dist_lt_iff. destruct p0 as [x0 y0], p1 as [x1 y1].
  unfold lon, lat, padd; simpl. split; intros H; nra.
Qed.

Lemma right_smallest_iff (P : R) (l : line) :
  0 < P ->
  (strictly_smallest (d_shift_right P l) (d_plain P l) (d_shift_left P l)
   <-> lon l.1 - lon l.2 < - (P / 2)).
Proof.
  intros HP. unfold strictly_smallest, d_shift_right, d_plain, d_shift_left.
  pose proof (right_test_iff P l.1 l.2 HP) as H1.
  pose proof (right_lt_left_iff P l.1 l.2 HP) as H2.
  unfold Rgt in H1. rewrite H1, H2. lra.
Qed.

Lemma left_smallest_iff (P : R) (l : line) :
  0 < P ->
  (strictly_smallest (d_shift_left P l) (d_plain P l) (d_shift_right P l)
   <-> lon l.1 - lon l.2 > P / 2).
Proof.
  intros HP. unfold strictly_smallest, d_shift_right, d_plain, d_shift_left.
  pose proof (left_test_iff P l.1 l.2 HP) as H1.
  pose proof (left_lt_right_iff P l.1 l.2 HP) as H2.
  unfold Rgt in H1. rewrite H1, H2. lra.
Qed.

(** The line from (359, 10) to (2, -5) in the ecliptic frame takes the
    second arm. *)
Lemma branch_359_2 : wrap_branch 360 ((359, 10), (2, -5)) = shift_left.
Proof. apply wrap_branch_left_iff; unfold lon; simpl; lra. Qed.

(** C1: for end points with longitudes in [0, P), P the period of the
    frame, the arm taken is the argmin of the three distances: the
    right-shift arm runs iff d_shift_right is strictly the smallest, the
    left-shift arm iff d_shift_left is strictly the smallest, and
    otherwise the line is appended unchanged. *)
Theorem wrap_branch_is_argmin (ecliptic_coords : bool) (p0 p1 : point) :
  0 <= lon p0 < x_max ecliptic_coords ->
  0 <= lon p1 < x_max ecliptic_coords ->
  (wrap_branch (x_max ecliptic_coords) (p0, p1) = shift_right <->
   strictly_smallest (d_shift_right (x_max ecliptic_coords) (p0, p1))
                     (d_plain (x_max ecliptic_coords) (p0, p1))
                     (d_shift_left (x_max ecliptic_coords) (p0, p1))) /\
  (wrap_branch (x_max ecliptic_coords) (p0, p1) = shift_left <->
   strictly_smallest (d_shift_left (x_max ecliptic_coords) (p0, p1))
                     (d_plain (x_max ecliptic_coords) (p0, p1))
                     (d_shift_right (x_max ecliptic_coords) (p0, p1))) /\
  (~ strictly_smallest (d_shift_right (x_max ecliptic_coords) (p0, p1))
                       (d_plain (x_max ecliptic_coords) (p0, p1))
                       (d_shift_left (x_max ecliptic_coords) (p0, p1)) ->
   ~ strictly_smallest (d_shift_left (x_max ecliptic_coords) (p0, p1))
                       (d_plain (x_max ecliptic_coords) (p0, p1))
                       (d_shift_right (x_max ecliptic_coords) (p0, p1)) ->
   wrap_branch (x_max ecliptic_coords) (p0, p1) = no_wrap /\
   segment_line (x_max ecliptic_coords) (p0, p1) = [ (p0, p1) ]) /\
  segment_line (x_max ecliptic_coords) (p0, p1)
  = emitted (x_max ecliptic_coords) (p0, p1)
            (wrap_branch (x_max ecliptic_coords) (p0, p1)).
Proof.
  intros _ _.
  pose proof (x_max_pos ecliptic_coords) as HP.
  set (P := x_max ecliptic_coords) in *.
  rewrite (right_smallest_iff P (p0, p1) HP), (left_smallest_iff P (p0, p1) HP).
  split; [apply wrap_branch_right_iff, HP|].
  split; [apply wrap_branch_left_iff, HP|].
  split; [|apply segment_line_emitted].
  intros HnR HnL.
  assert (E : wrap_branch P (p0, p1) = no_wrap).
  { apply wrap_branch_none_iff; [exact HP|]. lra. }
  split; [exact E|]. rewrite segment_line_emitted, E. reflexivity.
Qed.

Lemma wrap_branch_is_argmin_witness :
  wrap_branch (x_max true) ((359, 10), (2, -5)) = shift_left <->
  strictly_smallest (d_shift_left (x_max true) ((359, 10), (2, -5)))
                    (d_plain (x_max true) ((359, 10), (2, -5)))
                    (d_shift_right (x_max true) ((359, 10), (2, -5))).
Proof.
  refine (proj1 (proj2 (wrap_branch_is_argmin true (359, 10) (2, -5) _ _)));
    unfold lon; simpl; lra.
Defined.

(** C2: when d_plain is at most d_shift_right and at most d_shift_left,
    ties included, the segmenter appends exactly the original line. *)
Theorem no_wrap_keeps_line (P : R) (p0 p1 : point) :
  d_plain P (p0, p1) <= d_shift_right P (p0, p1) ->
  d_plain P (p0, p1) <= d_shift_left P (p0, p1) ->
  segment_line P (p0, p1) = [ (p0, p1) ].
Proof.
  unfold d_plain, d_shift_right, d_shift_left, segment_line; simpl.
  intros HR HL.
  destruct (Rgt_dec _ _) as [H|_]; [lra|].
  destruct (Rgt_dec _ _) as [H|_]; [lra|].
  reflexivity.
Qed.

Lemma no_wrap_keeps_line_witness :
  segment_line 360 ((10, 0), (20, 5)) = [ ((10, 0), (20, 5)) ].
Proof.
  apply (no_wrap_keeps_line 360 (10, 0) (20, 5));
    unfold d_plain, d_shift_right, d_shift_left;
    apply dist_le_iff; unfold lon, lat, padd; simpl; lra.
Defined.

(** The two scenarios of the specification, run on binary64. *)
Lemma float64_across_boundary :
  Float64.segment_line 360 ((359, 10), (2, -5))%float
  = [ ((-1, 10), (2, -5)); ((359, 10), (362, -5)) ]%float.
Proof. vm_compute. reflexivity. Qed.

Lemma float64_plain_line :
  Float64.segment_line 360 ((10, 0), (20, 5))%float
  = [ ((10, 0), (20, 5)) ]%float.
Proof. vm_compute. reflexivity. Qed.

(** Where binary64 leaves the real model: a latitude difference so large
    that its square absorbs the longitude term makes the three rounded
    distances equal, and the line stays unwrapped. *)
Lemma float64_absorbed_longitude :
  Float64.segment_line 360 ((0, 0), (181, 1e20))%float
  = [ ((0, 0), (181, 1e20)) ]%float.
Proof. vm_compute. reflexivity. Qed.

(** C5: the line from p0 = (359, 10) to p1 = (2, -5) with P = 360 takes
    the left-shift arm and yields [(-1, 10), (2, -5)] and then
    [(359, 10), (362, -5)]; the binary64 run gives the same two
    segments. *)
Theorem scenario_across_boundary :
  wrap_branch 360 ((359, 10), (2, -5)) = shift_left /\
  segment_line 360 ((359, 10), (2, -5))
  = [ ((-1, 10), (2, -5)); ((359, 10), (362, -5)) ] /\
  lines_xy_mod 360 [ ((359, 10), (2, -5)) ]
  = [ ((-1, 10), (2, -5)); ((359, 10), (362, -5)) ] /\
  Float64.lines_xy_mod 360 [ ((359, 10), (2, -5))%float ]
  = [ ((-1, 10), (2, -5)); ((359, 10), (362, -5)) ]%float.
Proof.
  assert (E : segment_line 360 ((359, 10), (2, -5))
              = [ ((-1, 10), (2, -5)); ((359, 10), (362, -5)) ]).
  { rewrite segment_line_emitted, branch_359_2. unfold emitted, psub, padd; simpl.
    repeat f_equal; lra. }
  split; [exact branch_359_2|]. split; [exact E|].
  split; [|vm_compute; reflexivity].
  rewrite lines_xy_mod_flat_map. simpl. rewrite E. reflexivity.
Qed.

(** C6: every segment appended for a line keeps the latitude of each end
    point; a longitude is either kept or moved by exactly one period, and
    at most one end of a segment is moved. *)
Theorem segments_keep_latitude (P : R) (l : line) :
  Forall (fun s : line =>
            lat s.1 = lat l.1 /\ lat s.2 = lat l.2 /\
            (lon s.1 = lon l.1 \/ lon s.1 = lon l.1 + P \/ lon s.1 = lon l.1 - P) /\
            (lon s.2 = lon l.2 \/ lon s.2 = lon l.2 + P \/ lon s.2 = lon l.2 - P) /\
            (lon s.1 = lon l.1 \/ lon s.2 = lon l.2))
         (segment_line P l).
Proof.
  rewrite segment_line_emitted. destruct l as [[x0 y0] [x1 y1]].
  destruct (wrap_branch P _); unfold emitted, padd, psub, lon, lat; simpl;
    repeat (apply List.Forall_cons; [simpl; lra|]); apply List.Forall_nil.
Qed.

(** On binary64 the decision depends on the latitudes: in the equatorial
    frame the longitudes 0 and 12.000000000000002 hours, which differ by
    more than half a period, give one segment at latitudes 0 and 30 and
    two segments at latitudes 0 and 0. *)
Lemma float64_wrap_depends_on_latitude :
  length (Float64.segment_line 24 ((0, 0), (0x1.8000000000001p+3, 30))%float) = 1%nat /\
  length (Float64.segment_line 24 ((0, 0), (0x1.8000000000001p+3, 0))%float) = 2%nat.
Proof. split; vm_compute; reflexivity. Qed.

(** C9, amended: for longitudes in [0, P) and latitudes in [-90, 90] the
    segmenter wraps whenever the longitudes differ by at least
    P/2 + 1e-9 and never when they differ by at most P/2 - 1e-9; a line
    that is wrapped takes the right-shift arm only if lon0 < lon1 and the
    left-shift arm only if lon0 > lon1.  Closer to P/2 the decision is
    left to the rounded distances. *)
Theorem wrap_decided_away_from_threshold (ecliptic_coords : bool)
    (lon0 lat0 lon1 lat1 : R) :
  0 <= lon0 < x_max ecliptic_coords ->
  0 <= lon1 < x_max ecliptic_coords ->
  -90 <= lat0 <= 90 ->
  -90 <= lat1 <= 90 ->
  (Rabs (lon0 - lon1) >= x_max ecliptic_coords / 2 + Chart.margin ->
   length (segment_line (x_max ecliptic_coords) ((lon0, lat0), (lon1, lat1))) = 2%nat /\
   (lon0 < lon1 ->
    wrap_branch (x_max ecliptic_coords) ((lon0, lat0), (lon1, lat1)) = shift_right) /\
   (lon0 > lon1 ->
    wrap_branch (x_max ecliptic_coords) ((lon0, lat0), (lon1, lat1)) = shift_left)) /\
  (Rabs (lon0 - lon1) <= x_max ecliptic_coords / 2 - Chart.margin ->
   wrap_branch (x_max ecliptic_coords) ((lon0, lat0), (lon1, lat1)) = no_wrap /\
   segment_line (x_max ecliptic_coords) ((lon0, lat0), (lon1, lat1))
   = [ ((lon0, lat0), (lon1, lat1)) ]) /\
  (wrap_branch (x_max ecliptic_coords) ((lon0, lat0), (lon1, lat1)) = shift_right ->
   lon0 < lon1) /\
  (wrap_branch (x_max ecliptic_coords) ((lon0, lat0), (lon1, lat1)) = shift_left ->
   lon0 > lon1).
Proof.
  intros _ _ _ _.
  pose proof (x_max_pos ecliptic_coords) as HP.
  set (P := x_max ecliptic_coords) in *.
  set (l := ((lon0, lat0), (lon1, lat1))).
  pose proof (wrap_branch_right_iff P l HP) as HR.
  pose proof (wrap_branch_left_iff P l HP) as HL.
  pose proof (wrap_branch_none_iff P l HP) as HN.
  unfold l, lon in HR, HL, HN; simpl in HR, HL, HN. fold l in HR, HL, HN.
  unfold Chart.margin.
  split; [|split; [|split]].
  - intros Habs.
    assert (Hfar : lon0 - lon1 < - (P / 2) \/ lon0 - lon1 > P / 2).
    { unfold Rabs in Habs. destruct (Rcase_abs _); lra. }
    split; [|split].
    + rewrite segment_line_emitted.
      destruct Hfar as [H|H]; [apply HR in H | apply HL in H]; rewrite H; reflexivity.
    + intros Hlt. apply HR. lra.
    + intros Hgt. apply HL. lra.
  - intros Habs.
    assert (E : wrap_branch P l = no_wrap).
    { apply HN. unfold Rabs in Habs. destruct (Rcase_abs _); lra. }
    split; [exact E|]. rewrite segment_line_emitted, E. reflexivity.
  - intros E. apply HR in E. lra.
  - intros E. apply HL in E. lra.
Qed.

Lemma wrap_decided_away_from_threshold_witness :
  length (segment_line (x_max false) ((1, 40), (23, -70))) = 2%nat /\
  wrap_branch (x_max false) ((1, 40), (23, -70)) = shift_right.
Proof.
  assert (Hfar : Rabs (1 - 23) >= x_max false / 2 + Chart.margin).
  { unfold Rabs, Chart.margin. destruct (Rcase_abs _); simpl; lra. }
  assert (H0 : 0 <= 1 < x_max false) by (simpl; lra).
  assert (H1 : 0 <= 23 < x_max false) by (simpl; lra).
  assert (H2 : -90 <= 40 <= 90) by lra.
  assert (H3 : -90 <= -70 <= 90) by lra.
  destruct (proj1 (wrap_decided_away_from_threshold false 1 40 23 (-70) H0 H1 H2 H3) Hfar)
    as [Hlen [Hright _]].
  split; [exact Hlen|]. apply Hright. lra.
Defined.



End GeometryFacts.

(** ** The brightness mask and the marker sizes *)

Module StarsFacts.
Import Stars.

(** Setting a list of labels to [True] one after the other. *)
Lemma lookup_set_all (labels : list Z) (series : gmap Z bool) (k : Z) :
  foldl (fun s i => <[i := true]> s) series labels !! k
  = if decide (k ∈ labels) then Some true else series !! k.
Proof.
  revert series. induction labels as [|i labels IH]; intros series; simpl.
  - destruct (decide (k ∈ [])) as [H|_]; [|reflexivity].
    now apply not_elem_of_nil in H.
  - rewrite IH.
    destruct (decide (k ∈ labels)) as [Hin|Hnin].
    + rewrite decide_True; [reflexivity|]. apply elem_of_cons. now right.
    + destruct (decide (k = i)) as [->|Hne].
      * rewrite decide_True by (apply elem_of_cons; now left).
        apply lookup_insert_eq.
      * rewrite decide_False.
        -- now apply lookup_insert_ne.
        -- intros H. apply elem_of_cons in H. tauto.
Qed.

Lemma set_true_Some (labels : list Z) (series : gmap Z bool) :
  (forall i, i ∈ labels -> is_Some (series !! i)) ->
  set_true labels series = Some (foldl (fun s i => <[i := true]> s) series labels).
Proof.
  intros H. unfold set_true.
  destruct (forallb _ labels) eqn:E; [reflexivity|].
  exfalso. apply not_true_iff_false in E. apply E.
  apply forallb_forall. intros i Hi. apply bool_decide_eq_true.
  apply H. now apply list_elem_of_In.
Qed.

Lemma set_true_None (labels : list Z) (series : gmap Z bool) (i : Z) :
  i ∈ labels -> series !! i = None -> set_true labels series = None.
Proof.
  intros Hi Hnone. unfold set_true.
  destruct (forallb _ labels) eqn:E; [|reflexivity].
  exfalso. rewrite forallb_forall in E.
  specialize (E i (proj1 (list_elem_of_In _ _) Hi)).
  apply bool_decide_eq_true in E. rewrite Hnone in E.
  now apply is_Some_None in E.
Qed.

Lemma set_true_inv (labels : list Z) (series mask : gmap Z bool) :
  set_true labels series = Some mask ->
  (forall i, i ∈ labels -> is_Some (series !! i)) /\
  mask = foldl (fun s i => <[i := true]> s) series labels.
Proof.
  unfold set_true. destruct (forallb _ labels) eqn:E; [|discriminate].
  intros [= <-]. split; [|reflexivity].
  intros i Hi. rewrite forallb_forall in E.
  specialize (E i (proj1 (list_elem_of_In _ _) Hi)).
  now apply bool_decide_eq_true in E.
Qed.

Lemma lookup_bright_stars (L : R) (magnitude : gmap Z R) (i : Z) :
  bright_stars L magnitude !! i
  = (fun m => bool_decide (m <= L)) <$> (magnitude !! i).
Proof. unfold bright_stars. apply lookup_fmap. Qed.

Lemma elem_of_edges_star1 (es : list (Z * Z)) (i : Z) :
  i ∈ edges_star1 es <-> exists e, e ∈ es /\ e.1 = i.
Proof.
  unfold edges_star1. rewrite list_elem_of_In, in_map_iff.
  split; intros [e [H1 H2]]; exists e; split; auto; now apply list_elem_of_In.
Qed.

Lemma elem_of_edges_star2 (es : list (Z * Z)) (i : Z) :
  i ∈ edges_star2 es <-> exists e, e ∈ es /\ e.2 = i.
Proof.
  unfold edges_star2. rewrite list_elem_of_In, in_map_iff.
  split; intros [e [H1 H2]]; exists e; split; auto; now apply list_elem_of_In.
Qed.

Lemma edge_endpoint_iff (constellations : list (string * list (Z * Z))) (i : Z) :
  edge_endpoint constellations i
  <-> i ∈ edges_star1 (edges constellations) \/ i ∈ edges_star2 (edges constellations).
Proof.
  unfold edge_endpoint. rewrite elem_of_edges_star1, elem_of_edges_star2.
  split.
  - intros [e [He [H|H]]]; [left|right]; exists e; auto.
  - intros [[e [He H]]|[e [He H]]]; exists e; auto.
Qed.

(** The mask, entry by entry, when every edge names stars of the
    catalogue. *)
Lemma inclusion_mask_Some (L : R) (magnitude : gmap Z R)
    (constellations : list (string * list (Z * Z))) :
  (forall e, e ∈ edges constellations ->
             is_Some (magnitude !! e.1) /\ is_Some (magnitude !! e.2)) ->
  exists mask,
    inclusion_mask L magnitude constellations = Some mask /\
    forall i,
      mask !! i
      = if decide (i ∈ edges_star1 (edges constellations)
                   \/ i ∈ edges_star2 (edges constellations))
        then Some true
        else (fun m => bool_decide (m <= L)) <$> (magnitude !! i).
Proof.
  intros Hin. unfold inclusion_mask.
  set (es := edges constellations) in *.
  assert (H1 : forall i, i ∈ edges_star1 es -> is_Some (bright_stars L magnitude !! i)).
  { intros i Hi. apply elem_of_edges_star1 in Hi as [e [He <-]].
    rewrite lookup_bright_stars. apply fmap_is_Some. now apply Hin. }
  rewrite (set_true_Some _ _ H1). simpl.
  set (mask1 := foldl _ (bright_stars L magnitude) (edges_star1 es)).
  assert (H2 : forall i, i ∈ edges_star2 es -> is_Some (mask1 !! i)).
  { intros i Hi. unfold mask1. rewrite lookup_set_all.
    destruct (decide _); [eexists; reflexivity|].
    apply elem_of_edges_star2 in Hi as [e [He <-]].
    rewrite lookup_bright_stars. apply fmap_is_Some. now apply Hin. }
  rewrite (set_true_Some _ _ H2).
  eexists; split; [reflexivity|].
  intros i. rewrite lookup_set_all. unfold mask1. rewrite lookup_set_all.
  rewrite lookup_bright_stars.
  destruct (decide (i ∈ edges_star2 es)), (decide (i ∈ edges_star1 es)),
    (decide (_ \/ _)); tauto.
Qed.

(** A missing end point is a [KeyError]: no mask is produced. *)
Lemma inclusion_mask_None (L : R) (magnitude : gmap Z R)
    (constellations : list (string * list (Z * Z))) (e : Z * Z) :
  e ∈ edges constellations ->
  magnitude !! e.1 = None \/ magnitude !! e.2 = None ->
  inclusion_mask L magnitude constellations = None.
Proof.
  intros He Hnone. unfold inclusion_mask.
  destruct (set_true (edges_star1 _) _) as [mask1|] eqn:E1; [|reflexivity].
  simpl. apply set_true_inv in E1 as [Hall ->].
  destruct (magnitude !! e.1) as [m1|] eqn:Em1.
  - destruct Hnone as [Hn|Hn]; [discriminate|].
    destruct (decide (e.2 ∈ edges_star1 (edges constellations))) as [Hi|Hni].
    + apply Hall in Hi. rewrite lookup_bright_stars, Hn in Hi.
      now apply is_Some_None in Hi.
    + apply (set_true_None _ _ e.2).
      * apply elem_of_edges_star2. now exists e.
      * rewrite lookup_set_all, decide_False by exact Hni.
        now rewrite lookup_bright_stars, Hn.
  - exfalso.
    assert (Hi : e.1 ∈ edges_star1 (edges constellations)).
    { apply elem_of_edges_star1. now exists e. }
    apply Hall in Hi. rewrite lookup_bright_stars, Em1 in Hi.
    now apply is_Some_None in Hi.
Qed.

(** What the mask says of a star of the catalogue. *)
Lemma inclusion_mask_star (L : R) (magnitude : gmap Z R)
    (constellations : list (string * list (Z * Z))) :
  (forall e, e ∈ edges constellations ->
             is_Some (magnitude !! e.1) /\ is_Some (magnitude !! e.2)) ->
  exists mask,
    inclusion_mask L magnitude constellations = Some mask /\
    (forall i m, magnitude !! i = Some m ->
       (mask !! i = Some true <-> m <= L \/ edge_endpoint constellations i) /\
       (mask !! i = Some false <-> ~ (m <= L \/ edge_endpoint constellations i)) /\
       is_Some (mask !! i)) /\
    (forall i, magnitude !! i = None -> mask !! i = None).
Proof.
  intros Hin. destruct (inclusion_mask_Some L magnitude constellations Hin)
    as [mask [Hmask Hlook]].
  exists mask. split; [exact Hmask|]. split.
  - intros i m Hm. rewrite Hlook, Hm, edge_endpoint_iff. simpl.
    destruct (decide (_ \/ _)) as [He|He].
    + split; [|split; [|now eexists]]; split; try tauto; intros; discriminate.
    + destruct (bool_decide (m <= L)) eqn:Eb.
      * apply bool_decide_eq_true in Eb.
        split; [|split; [|now eexists]]; split; try tauto; intros; discriminate.
      * apply bool_decide_eq_false in Eb.
        split; [|split; [|now eexists]]; split; try tauto; intros; discriminate.
  - intros i Hm. rewrite Hlook, Hm. simpl.
    destruct (decide (_ \/ _)) as [He|He]; [|reflexivity].
    exfalso.
    destruct He as [He|He];
      [apply elem_of_edges_star1 in He | apply elem_of_edges_star2 in He];
      destruct He as [e [He <-]]; apply Hin in He as [H1 H2];
      rewrite Hm in *; now (apply is_Some_None in H1 || apply is_Some_None in H2).
Qed.

(** The marker size of a star, by its entry in the mask. *)
Lemma lookup_marker_size (L : R) (magnitude : gmap Z R) (mask : gmap Z bool)
    (i : Z) (s : R) :
  marker_size L magnitude mask !! i = Some s
  <-> exists m, magnitude !! i = Some m /\ mask !! i = Some true /\ s = size_of L m.
Proof.
  unfold marker_size, select. rewrite lookup_fmap, fmap_Some. split.
  - intros [m [Hm ->]]. apply map_lookup_filter_Some in Hm as [Hm Hi].
    exists m. auto.
  - intros [m [Hm [Hi ->]]]. exists m. split; [|reflexivity].
    apply map_lookup_filter_Some. auto.
Qed.

(** C4: when every edge names stars of the catalogue the mask exists,
    and a star's entry is True iff its magnitude is at most L or it is an
    end point, on either side, of some edge; other stars get False. *)
Theorem mask_true_iff_bright_or_endpoint (L : R) (magnitude : gmap Z R)
    (constellations : list (string * list (Z * Z))) :
  (forall e, e ∈ edges constellations ->
             is_Some (magnitude !! e.1) /\ is_Some (magnitude !! e.2)) ->
  exists mask,
    inclusion_mask L magnitude constellations = Some mask /\
    (forall i m, magnitude !! i = Some m ->
       (mask !! i = Some true <-> m <= L \/ edge_endpoint constellations i) /\
       (edge_endpoint constellations i -> mask !! i = Some true) /\
       (~ m <= L -> ~ edge_endpoint constellations i -> mask !! i = Some false)) /\
    (forall i, is_Some (mask !! i) <-> is_Some (magnitude !! i)).
Proof.
  intros Hin. destruct (inclusion_mask_star L magnitude constellations Hin)
    as [mask [Hmask [Hstar Hnone]]].
  exists mask. split; [exact Hmask|]. split.
  - intros i m Hm. destruct (Hstar i m Hm) as [Ht [Hf _]].
    split; [exact Ht|]. split.
    + intros He. apply Ht. now right.
    + intros Hm' He. apply Hf. tauto.
  - intros i. destruct (magnitude !! i) as [m|] eqn:Em.
    + destruct (Hstar i m Em) as [_ [_ Hs]].
      split; [intros _; now eexists | intros _; exact Hs].
    + rewrite (Hnone i Em). split; intros H; now apply is_Some_None in H.
Qed.

Lemma mask_true_iff_bright_or_endpoint_witness :
  exists mask,
    inclusion_mask 3 {[ 1%Z := 2; 2%Z := 5 ]} [ ("Ori"%string, [ (1%Z, 2%Z) ]) ]
    = Some mask /\
    (forall i m, ({[ 1%Z := 2; 2%Z := 5 ]} : gmap Z R) !! i = Some m ->
       (mask !! i = Some true
        <-> m <= 3 \/ edge_endpoint [ ("Ori"%string, [ (1%Z, 2%Z) ]) ] i) /\
       (edge_endpoint [ ("Ori"%string, [ (1%Z, 2%Z) ]) ] i -> mask !! i = Some true) /\
       (~ m <= 3 -> ~ edge_endpoint [ ("Ori"%string, [ (1%Z, 2%Z) ]) ] i ->
        mask !! i = Some false)) /\
    (forall i, is_Some (mask !! i)
               <-> is_Some (({[ 1%Z := 2; 2%Z := 5 ]} : gmap Z R) !! i)).
Proof.
  apply (mask_true_iff_bright_or_endpoint
           3 {[ 1%Z := 2; 2%Z := 5 ]} [ ("Ori"%string, [ (1%Z, 2%Z) ]) ]).
  intros e He. simpl in He. apply list_elem_of_singleton in He. subst e.
  split; simpl; eexists; reflexivity.
Defined.




End StarsFacts.

(** ** The frame selector *)

Module FrameFacts.
Import Frame.

Lemma frame_setup_period (v : pyval) :
  exists a, frame_setup v = Returned a /\ period a = Geometry.x_max (truthy v).
Proof.
  unfold frame_setup. eexists. split; [reflexivity|].
  simpl. destruct (truthy v); reflexivity.
Qed.

(** The selector ['galactic'] is none of the documented ones, and the
    build does not fail on it: it is true as a Python object, so the
    chart is laid out in the ecliptic frame. *)
Lemma unrecognized_selector_is_accepted :
  ~ recognized (PyStr "galactic") /\
  frame_setup (PyStr "galactic") <> Raised InvalidFrame /\
  exists a, frame_setup (PyStr "galactic") = Returned a /\ period a = 360.
Proof.
  split; [intros [b Hb]; discriminate|].
  split; [unfold frame_setup; discriminate|].
  destruct (frame_setup_period (PyStr "galactic")) as [a [Ha Hp]].
  exists a. split; [exact Ha|]. rewrite Hp. reflexivity.
Qed.

(** C8, amended: the selector is read by its truth value only, and no
    value of it makes the build raise: a true value lays the chart out in
    the ecliptic frame with period 360, a false one in the equatorial
    frame with period 24. *)
Theorem frame_setup_never_raises (v : pyval) :
  (forall e, frame_setup v <> Raised e) /\
  exists a, frame_setup v = Returned a /\
            period a = Geometry.x_max (truthy v) /\
            period a = (if truthy v then 360 else 24) /\
            xlim a = (period a, 0) /\
            xticks a = (if truthy v then Frame.arange 0 361 30 else Frame.arange 0 25 2).
Proof.
  split; [intros e; unfold frame_setup; discriminate|].
  unfold frame_setup. eexists. split; [reflexivity|]. simpl.
  destruct (truthy v); repeat split; reflexivity.
Qed.

End FrameFacts.

(** ** Motion vectors *)

Module BodiesFacts.
Import Bodies.

Section Ephemeris.

Variable observe : R -> string -> position.

(** C7: the motion vector of a body is its plotted position seven days
    later minus its plotted position now, component by component and in
    the frame of the chart; nothing is reduced modulo the period, and the
    arrow ends at the later position. *)
Theorem motion_vector_is_difference (ecliptic_coords : bool) (t : R) (obj : string) :
  motion_vector observe ecliptic_coords t obj
  = Geometry.psub (marker_xy observe ecliptic_coords (t + 7) obj)
                  (marker_xy observe ecliptic_coords t obj) /\
  arrow_end observe ecliptic_coords t obj
  = marker_xy observe ecliptic_coords (t + 7) obj.
Proof.
  unfold arrow_end, motion_vector, marker_xy, Geometry.psub.
  destruct ecliptic_coords.
  - destruct (ecliptic_latlon (observe t obj)) as [la lo].
    destruct (ecliptic_latlon (observe (t + 7) obj)) as [la1 lo1].
    simpl. split; [reflexivity|]. f_equal; lra.
  - destruct (radec (observe t obj)) as [ra dec].
    destruct (radec (observe (t + 7) obj)) as [ra1 dec1].
    simpl. split; [reflexivity|]. f_equal; lra.
Qed.

End Ephemeris.

(** The vector of a body that crosses the boundary spans the chart. *)
Lemma motion_vector_across_boundary :
  motion_vector crossing true 0 "sun" = (-357, 0).
Proof.
  unfold motion_vector, crossing; simpl.
  destruct (Rle_dec (0 + 7) 0) as [H|_]; [lra|].
  destruct (Rle_dec 0 0) as [_|H]; [|lra].
  f_equal; lra.
Qed.

End BodiesFacts.

(** ** More on the periodic line segmenter *)

Module SegmenterFacts.
Import Geometry GeometryFacts.

Lemma length_emitted (P : R) (l : line) (b : branch) :
  length (emitted P l b) = if decide (b = no_wrap) then 1%nat else 2%nat.
Proof. destruct b; reflexivity. Qed.

Lemma Rabs_le_iff (x c : R) : Rabs x <= c <-> - c <= x <= c.
Proof. unfold Rabs. destruct (Rcase_abs x); lra. Qed.

(** The difference of longitudes along what one line yields, for end
    points within the x range. *)
Lemma emitted_difference (P : R) (l : line) :
  0 < P ->
  0 <= lon l.1 < P -> 0 <= lon l.2 < P ->
  Forall (fun s : line => - (P / 2) <= lon s.1 - lon s.2 <= P / 2)
         (segment_line P l).
Proof.
  intros HP H0 H1. rewrite segment_line_emitted.
  destruct (wrap_branch P l) eqn:E.
  - apply wrap_branch_right_iff in E; [|exact HP].
    destruct l as [[x0 y0] [x1 y1]]. unfold emitted, padd, psub, lon in *; simpl in *.
    repeat (apply List.Forall_cons; [simpl; lra|]). apply List.Forall_nil.
  - apply wrap_branch_left_iff in E; [|exact HP].
    destruct l as [[x0 y0] [x1 y1]]. unfold emitted, padd, psub, lon in *; simpl in *.
    repeat (apply List.Forall_cons; [simpl; lra|]). apply List.Forall_nil.
  - apply wrap_branch_none_iff in E; [|exact HP].
    unfold emitted. apply List.Forall_cons; [exact E|]. apply List.Forall_nil.
Qed.

(** Lines that span at most half a period pass through untouched. *)
Lemma short_lines_unchanged (P : R) (ls : list line) :
  0 < P ->
  Forall (fun l : line => - (P / 2) <= lon l.1 - lon l.2 <= P / 2) ls ->
  lines_xy_mod P ls = ls.
Proof.
  intros HP H. rewrite lines_xy_mod_flat_map.
  induction H as [|l ls Hl _ IH]; [reflexivity|].
  simpl. rewrite IH, segment_line_emitted.
  apply wrap_branch_none_iff in Hl; [|exact HP]. rewrite Hl. reflexivity.
Qed.

Lemma lines_xy_mod_difference (P : R) (ls : list line) :
  0 < P ->
  Forall (fun l : line => (0 <= lon l.1 < P) /\ (0 <= lon l.2 < P)) ls ->
  Forall (fun s : line => - (P / 2) <= lon s.1 - lon s.2 <= P / 2)
         (lines_xy_mod P ls).
Proof.
  intros HP H. rewrite lines_xy_mod_flat_map.
  induction H as [|l ls [H0 H1] _ IH]; simpl; [apply List.Forall_nil|].
  apply Forall_app. split; [|exact IH].
  now apply emitted_difference.
Qed.

(** X1: The loop appends one segment for a line it leaves alone and two for
    a line it wraps, so the output has as many segments as there are
    input lines plus wrapped lines: never fewer than the input, never
    more than twice as many. *)
Theorem lines_xy_mod_length (P : R) (ls : list line) :
  length (lines_xy_mod P ls)
  = (length ls + length (filter (fun l => wrap_branch P l <> no_wrap) ls))%nat /\
  (length ls <= length (lines_xy_mod P ls) <= 2 * length ls)%nat.
Proof.
  rewrite lines_xy_mod_flat_map.
  induction ls as [|l ls [IH1 IH2]]; simpl; [split; [reflexivity|lia]|].
  rewrite length_app, segment_line_emitted, length_emitted, filter_cons.
  destruct (decide (wrap_branch P l = no_wrap)) as [E|E].
  - rewrite decide_False by tauto. simpl. split; lia.
  - rewrite decide_True by exact E. simpl. split; lia.
Qed.

(** X2: For lines whose end points lie within the x range of the chart and
    within the latitudes, no segment that is drawn spans more than half
    a period in longitude, up to the margin of the distance tests. *)
Theorem segments_span_at_most_half_period (ecliptic_coords : bool) (ls : list line) :
  Forall (fun l : line => Chart.in_chart (x_max ecliptic_coords) l.1 /\
                          Chart.in_chart (x_max ecliptic_coords) l.2 /\
                          Chart.in_latitudes l.1 /\ Chart.in_latitudes l.2) ls ->
  Forall (fun s : line =>
            Rabs (lon s.1 - lon s.2) <= x_max ecliptic_coords / 2 + Chart.margin)
         (lines_xy_mod (x_max ecliptic_coords) ls).
Proof.
  intros H.
  eapply Forall_impl; [apply lines_xy_mod_difference; [apply x_max_pos|]|].
  - eapply Forall_impl; [exact H|]. intros l Hl. simpl in Hl.
    unfold Chart.in_chart in Hl. tauto.
  - intros s Hs. apply Rabs_le_iff. unfold Chart.margin. lra.
Qed.

Lemma segments_span_at_most_half_period_witness :
  Forall (fun s : line => Rabs (lon s.1 - lon s.2) <= x_max true / 2 + Chart.margin)
         (lines_xy_mod (x_max true) [ ((359, 10), (2, -5)); ((10, 0), (20, 5)) ]).
Proof.
  apply (segments_span_at_most_half_period true).
  repeat (apply List.Forall_cons;
          [unfold Chart.in_chart, Chart.in_latitudes, lon, lat; simpl; lra|]).
  apply List.Forall_nil.
Defined.

(** Reversing a line exchanges the two shift arms. *)
Lemma wrap_branch_reversed (P : R) (p0 p1 : point) :
  0 < P ->
  wrap_branch P (p1, p0)
  = match wrap_branch P (p0, p1) with
    | shift_right => shift_left
    | shift_left => shift_right
    | no_wrap => no_wrap
    end.
Proof.
  intros HP.
  pose proof (wrap_branch_right_iff P (p0, p1) HP) as HR.
  pose proof (wrap_branch_left_iff P (p0, p1) HP) as HL.
  pose proof (wrap_branch_none_iff P (p0, p1) HP) as HN.
  simpl in HR, HL, HN.
  destruct (wrap_branch P (p0, p1)).
  - apply wrap_branch_left_iff; [exact HP|]. simpl.
    assert (lon p0 - lon p1 < - (P / 2)) by now apply HR. lra.
  - apply wrap_branch_right_iff; [exact HP|]. simpl.
    assert (lon p0 - lon p1 > P / 2) by now apply HL. lra.
  - apply wrap_branch_none_iff; [exact HP|]. simpl.
    assert (- (P / 2) <= lon p0 - lon p1 <= P / 2) by now apply HN. lra.
Qed.

(** X4: The direction in which an edge is listed does not change what is
    drawn: the reversed line yields the same segments, each reversed, in
    the opposite order. *)
Theorem segment_line_reversed (ecliptic_coords : bool) (p0 p1 : point) :
  segment_line (x_max ecliptic_coords) (p1, p0)
  = reverse ((fun s : line => (s.2, s.1))
               <$> segment_line (x_max ecliptic_coords) (p0, p1)).
Proof.
  rewrite !segment_line_emitted.
  rewrite (wrap_branch_reversed _ p0 p1 (x_max_pos ecliptic_coords)).
  destruct (wrap_branch _ (p0, p1)); reflexivity.
Qed.

(** X5: A wrapped line whose end points lie within the x range is drawn as
    two segments that each leave the range on one side only: each keeps
    one original end point, and the moved end lies at or beyond the
    period in one segment and below zero in the other. *)
Theorem wrapped_segments_leave_on_both_sides (ecliptic_coords : bool) (p0 p1 : point) :
  Chart.in_chart (x_max ecliptic_coords) p0 ->
  Chart.in_chart (x_max ecliptic_coords) p1 ->
  match wrap_branch (x_max ecliptic_coords) (p0, p1) with
  | shift_right =>
      exists q0 q1 : point,
        segment_line (x_max ecliptic_coords) (p0, p1) = [ (q0, p1); (p0, q1) ] /\
        x_max ecliptic_coords <= lon q0 /\ lon q1 < 0
  | shift_left =>
      exists q0 q1 : point,
        segment_line (x_max ecliptic_coords) (p0, p1) = [ (q0, p1); (p0, q1) ] /\
        lon q0 < 0 /\ x_max ecliptic_coords <= lon q1
  | no_wrap => segment_line (x_max ecliptic_coords) (p0, p1) = [ (p0, p1) ]
  end.
Proof.
  unfold Chart.in_chart. intros H0 H1.
  rewrite segment_line_emitted.
  destruct (wrap_branch _ (p0, p1)); unfold emitted; [| |reflexivity];
    eexists; eexists; (split; [reflexivity|]);
    destruct p0 as [x0 y0], p1 as [x1 y1];
    unfold padd, psub, lon in *; simpl in *; lra.
Qed.

Lemma wrapped_segments_leave_on_both_sides_witness :
  match wrap_branch (x_max true) ((359, 10), (2, -5)) with
  | shift_right =>
      exists q0 q1 : point,
        segment_line (x_max true) ((359, 10), (2, -5))
        = [ (q0, (2, -5)); ((359, 10), q1) ] /\
        x_max true <= lon q0 /\ lon q1 < 0
  | shift_left =>
      exists q0 q1 : point,
        segment_line (x_max true) ((359, 10), (2, -5))
        = [ (q0, (2, -5)); ((359, 10), q1) ] /\
        lon q0 < 0 /\ x_max true <= lon q1
  | no_wrap =>
      segment_line (x_max true) ((359, 10), (2, -5)) = [ ((359, 10), (2, -5)) ]
  end.
Proof.
  apply (wrapped_segments_leave_on_both_sides true (359, 10) (2, -5));
    unfold Chart.in_chart, lon; simpl; lra.
Defined.

(** X6: Running the loop on its own output changes nothing, for lines whose
    end points lie within the x range and whose longitudes do not differ
    from half a period by less than the margin: no segment it draws is
    wrapped again. *)
Theorem lines_xy_mod_idempotent (ecliptic_coords : bool) (ls : list line) :
  Forall (fun l : line =>
            Chart.in_chart (x_max ecliptic_coords) l.1 /\
            Chart.in_chart (x_max ecliptic_coords) l.2 /\
            (Rabs (lon l.1 - lon l.2) <= x_max ecliptic_coords / 2 - Chart.margin \/
             Rabs (lon l.1 - lon l.2) >= x_max ecliptic_coords / 2 + Chart.margin)) ls ->
  lines_xy_mod (x_max ecliptic_coords) (lines_xy_mod (x_max ecliptic_coords) ls)
  = lines_xy_mod (x_max ecliptic_coords) ls.
Proof.
  intros H. apply short_lines_unchanged; [apply x_max_pos|].
  apply lines_xy_mod_difference; [apply x_max_pos|].
  eapply Forall_impl; [exact H|]. intros l Hl. simpl in Hl.
  unfold Chart.in_chart in Hl. tauto.
Qed.

Lemma lines_xy_mod_idempotent_witness :
  lines_xy_mod (x_max false)
    (lines_xy_mod (x_max false) [ ((1, 40), (23, -70)); ((3, 0), (5, 5)) ])
  = lines_xy_mod (x_max false) [ ((1, 40), (23, -70)); ((3, 0), (5, 5)) ].
Proof.
  apply (lines_xy_mod_idempotent false).
  apply List.Forall_cons.
  - unfold Chart.in_chart, Chart.margin, lon; simpl.
    split; [lra|]. split; [lra|]. right.
    unfold Rabs. destruct (Rcase_abs _); lra.
  - apply List.Forall_cons; [|apply List.Forall_nil].
    unfold Chart.in_chart, Chart.margin, lon; simpl.
    split; [lra|]. split; [lra|]. left.
    unfold Rabs. destruct (Rcase_abs _); lra.
Defined.

End SegmenterFacts.

(** ** More on the brightness mask and the marker sizes *)

Module MaskFacts.
Import Stars StarsFacts.

(** A mask was produced only if every edge names stars of the
    catalogue. *)
Lemma inclusion_mask_Some_inv (L : R) (magnitude : gmap Z R)
    (constellations : list (string * list (Z * Z))) (mask : gmap Z bool) :
  inclusion_mask L magnitude constellations = Some mask ->
  forall e, e ∈ edges constellations ->
            is_Some (magnitude !! e.1) /\ is_Some (magnitude !! e.2).
Proof.
  intros Hmask e He.
  destruct (magnitude !! e.1) as [m1|] eqn:E1.
  - destruct (magnitude !! e.2) as [m2|] eqn:E2; [split; now eexists|].
    rewrite (inclusion_mask_None L magnitude constellations e He) in Hmask;
      [discriminate | now right].
  - rewrite (inclusion_mask_None L magnitude constellations e He) in Hmask;
      [discriminate | now left].
Qed.

(** The mask as a function of the star, once it exists. *)
Lemma inclusion_mask_lookup (L : R) (magnitude : gmap Z R)
    (constellations : list (string * list (Z * Z))) (mask : gmap Z bool) (i : Z) :
  inclusion_mask L magnitude constellations = Some mask ->
  mask !! i
  = if decide (i ∈ edges_star1 (edges constellations)
               \/ i ∈ edges_star2 (edges constellations))
    then Some true
    else (fun m => bool_decide (m <= L)) <$> (magnitude !! i).
Proof.
  intros Hmask.
  destruct (inclusion_mask_Some L magnitude constellations
              (inclusion_mask_Some_inv L magnitude constellations mask Hmask))
    as [mask' [Hmask' Hlook]].
  rewrite Hmask in Hmask'. injection Hmask' as ->. apply Hlook.
Qed.

Lemma inclusion_mask_None_inv (L : R) (magnitude : gmap Z R)
    (constellations : list (string * list (Z * Z))) :
  inclusion_mask L magnitude constellations = None ->
  exists e, e ∈ edges constellations /\
            (magnitude !! e.1 = None \/ magnitude !! e.2 = None).
Proof.
  intros Hnone.
  destruct (decide (Exists (fun e : Z * Z =>
                              ~ is_Some (magnitude !! e.1)
                              \/ ~ is_Some (magnitude !! e.2))
                           (edges constellations))) as [Hex|Hall].
  - apply Exists_exists in Hex as [e [He Hmiss]]. exists e. split; [exact He|].
    rewrite !eq_None_not_Some. exact Hmiss.
  - exfalso.
    destruct (inclusion_mask_Some L magnitude constellations) as [mask [Hmask _]].
    + intros e He. rewrite Exists_exists in Hall.
      destruct (decide (is_Some (magnitude !! e.1))) as [H1|H1];
        [|exfalso; apply Hall; exists e; tauto].
      destruct (decide (is_Some (magnitude !! e.2))) as [H2|H2];
        [|exfalso; apply Hall; exists e; tauto].
      split; assumption.
    + congruence.
Qed.

(** X8: The mask step raises [KeyError] exactly when some edge names a star
    that is not in the catalogue, whatever the magnitudes and the
    limit. *)
Theorem inclusion_mask_fails_iff_missing_endpoint (L : R) (magnitude : gmap Z R)
    (constellations : list (string * list (Z * Z))) :
  inclusion_mask L magnitude constellations = None
  <-> exists e, e ∈ edges constellations /\
                (magnitude !! e.1 = None \/ magnitude !! e.2 = None).
Proof.
  split; [apply inclusion_mask_None_inv|].
  intros [e [He Hmiss]]. now apply (inclusion_mask_None L magnitude constellations e).
Qed.

(** X9: Raising the limiting magnitude never removes a star: the mask still
    exists and every star that was drawn is still drawn. *)
Theorem mask_grows_with_limit (L L' : R) (magnitude : gmap Z R)
    (constellations : list (string * list (Z * Z))) (mask : gmap Z bool) :
  L <= L' ->
  inclusion_mask L magnitude constellations = Some mask ->
  exists mask',
    inclusion_mask L' magnitude constellations = Some mask' /\
    forall i, mask !! i = Some true -> mask' !! i = Some true.
Proof.
  intros HL Hmask.
  destruct (inclusion_mask_Some L' magnitude constellations
              (inclusion_mask_Some_inv L magnitude constellations mask Hmask))
    as [mask' [Hmask' Hlook']].
  exists mask'. split; [exact Hmask'|].
  intros i. rewrite Hlook', (inclusion_mask_lookup L _ _ mask i Hmask).
  destruct (decide _); [tauto|].
  destruct (magnitude !! i) as [m|]; simpl; [|discriminate].
  intros [= Hb]. apply bool_decide_eq_true in Hb.
  f_equal. apply bool_decide_eq_true. lra.
Qed.

Lemma mask_grows_with_limit_witness :
  exists mask',
    inclusion_mask 4 {[ 1%Z := 2; 2%Z := 5 ]} [ ("Ori"%string, [ (1%Z, 2%Z) ]) ]
    = Some mask' /\
    forall i,
      (<[ 1%Z := true ]> (<[ 2%Z := true ]> (<[ 1%Z := true ]>
         (bright_stars 3 {[ 1%Z := 2; 2%Z := 5 ]})))) !! i = Some true ->
      mask' !! i = Some true.
Proof.
  apply (mask_grows_with_limit 3 4 {[ 1%Z := 2; 2%Z := 5 ]}
           [ ("Ori"%string, [ (1%Z, 2%Z) ]) ]); [lra|].
  reflexivity.
Defined.

End MaskFacts.

(** ** The star layer of the chart *)

Module ChartFacts.
Import Geometry GeometryFacts Stars StarsFacts MaskFacts Chart.

Lemma lookup_magnitudes (stars : gmap Z star) (i : Z) :
  magnitudes stars !! i = magnitude <$> (stars !! i).
Proof. apply lookup_fmap. Qed.

Lemma lookup_lon_lat (ecl : bool) (stars : gmap Z star) (i : Z) :
  lon_lat ecl stars !! i = (fun s => star_xy ecl (apparent s)) <$> (stars !! i).
Proof. apply lookup_fmap. Qed.

(** [lines_xy], one edge at a time. *)
Lemma lines_xy_nil (ecl : bool) (stars : gmap Z star) :
  lines_xy ecl stars [] = Some [].
Proof. reflexivity. Qed.

Lemma lines_xy_cons (ecl : bool) (stars : gmap Z star) (e : Z * Z) (es : list (Z * Z)) :
  lines_xy ecl stars (e :: es)
  = match lon_lat ecl stars !! e.1, lon_lat ecl stars !! e.2,
          lines_xy ecl stars es with
    | Some p, Some q, Some ls => Some ((p, q) :: ls)
    | _, _, _ => None
    end.
Proof.
  unfold lines_xy, loc, edges_star1, edges_star2. simpl.
  set (xy1 := mapM _ (map (fun e0 : Z * Z => e0.1) es)).
  set (xy2 := mapM _ (map (fun e0 : Z * Z => e0.2) es)).
  destruct (lon_lat ecl stars !! e.1) as [p|],
           (lon_lat ecl stars !! e.2) as [q|],
           xy1 as [l1|], xy2 as [l2|]; reflexivity.
Qed.

Lemma lines_xy_Some (ecl : bool) (stars : gmap Z star) (es : list (Z * Z)) :
  (forall e, e ∈ es -> is_Some (stars !! e.1) /\ is_Some (stars !! e.2)) ->
  exists ls, lines_xy ecl stars es = Some ls /\ Forall2 (joins ecl stars) es ls.
Proof.
  induction es as [|e es IH]; intros Hin.
  - exists []. split; [reflexivity|constructor].
  - destruct IH as [ls [Hls Hrows]].
    { intros e' He'. apply Hin. apply elem_of_cons. now right. }
    destruct (Hin e) as [[sa Ha] [sb Hb]]; [apply elem_of_cons; now left|].
    exists ((star_xy ecl (apparent sa), star_xy ecl (apparent sb)) :: ls).
    split.
    + rewrite lines_xy_cons, !lookup_lon_lat, Ha, Hb, Hls. reflexivity.
    + constructor; [|exact Hrows]. exists sa, sb. auto.
Qed.

Lemma lines_xy_None (ecl : bool) (stars : gmap Z star) (es : list (Z * Z)) (e : Z * Z) :
  e ∈ es -> stars !! e.1 = None \/ stars !! e.2 = None ->
  lines_xy ecl stars es = None.
Proof.
  induction es as [|e' es IH]; intros He Hmiss.
  - now apply elem_of_nil in He.
  - rewrite lines_xy_cons, !lookup_lon_lat.
    apply elem_of_cons in He as [->|He].
    + destruct Hmiss as [-> | ->]; simpl; [reflexivity|].
      destruct (stars !! e'.1); reflexivity.
    + rewrite (IH He Hmiss).
      destruct (stars !! e'.1), (stars !! e'.2); reflexivity.
Qed.

Lemma stars_present_magnitudes (stars : gmap Z star) (es : list (Z * Z)) :
  (forall e, e ∈ es -> is_Some (stars !! e.1) /\ is_Some (stars !! e.2)) ->
  forall e, e ∈ es ->
            is_Some (magnitudes stars !! e.1) /\ is_Some (magnitudes stars !! e.2).
Proof.
  intros H e He. rewrite !lookup_magnitudes, !fmap_is_Some. now apply H.
Qed.

(** The layer, when every edge names stars of the catalogue. *)
Lemma draw_stars_Some (ecl : bool) (L : R) (stars : gmap Z star)
    (constellations : list (string * list (Z * Z))) :
  (forall e, e ∈ edges constellations ->
             is_Some (stars !! e.1) /\ is_Some (stars !! e.2)) ->
  exists mask ls,
    inclusion_mask L (magnitudes stars) constellations = Some mask /\
    lines_xy ecl stars (edges constellations) = Some ls /\
    Forall2 (joins ecl stars) (edges constellations) ls /\
    draw_stars ecl L stars constellations
    = Some {| points := scatter_xy ecl stars mask;
              sizes := marker_size L (magnitudes stars) mask;
              segments := lines_xy_mod (x_max ecl) ls |}.
Proof.
  intros Hin.
  destruct (inclusion_mask_Some L (magnitudes stars) constellations
              (stars_present_magnitudes stars _ Hin)) as [mask [Hmask _]].
  destruct (lines_xy_Some ecl stars (edges constellations) Hin) as [ls [Hls Hrows]].
  exists mask, ls. repeat split; try assumption.
  unfold draw_stars. rewrite Hmask, Hls. reflexivity.
Qed.

(** A star is plotted iff the mask holds [True] for it. *)
Lemma lookup_scatter_xy (ecl : bool) (stars : gmap Z star) (mask : gmap Z bool)
    (i : Z) (p : point) :
  scatter_xy ecl stars mask !! i = Some p
  <-> exists s, stars !! i = Some s /\ mask !! i = Some true /\
                p = star_xy ecl (apparent s).
Proof.
  unfold scatter_xy. rewrite map_lookup_filter_Some, lookup_lon_lat, fmap_Some.
  simpl. split.
  - intros [[s [Hs ->]] Hm]. exists s. auto.
  - intros [s [Hs [Hm ->]]]. split; [exists s; auto|exact Hm].
Qed.

(** A segment drawn for a line keeps at least one of its end points. *)
Lemma segment_keeps_an_end (P : R) (l s : line) :
  s ∈ segment_line P l -> s.1 = l.1 \/ s.2 = l.2.
Proof.
  rewrite segment_line_emitted.
  destruct (wrap_branch P l); unfold emitted; intros Hs;
    repeat (apply elem_of_cons in Hs as [->|Hs]; [simpl; tauto|]);
    now apply elem_of_nil in Hs.
Qed.

Lemma elem_of_lines_xy_mod (P : R) (ls : list line) (s : line) :
  s ∈ lines_xy_mod P ls <-> exists l, l ∈ ls /\ s ∈ segment_line P l.
Proof.
  rewrite lines_xy_mod_flat_map, list_elem_of_In, in_flat_map.
  split; intros [l [H1 H2]]; exists l; split; now apply list_elem_of_In.
Qed.

Lemma sample_stars_present :
  forall e, e ∈ edges sample_constellations ->
            is_Some (sample_stars !! e.1) /\ is_Some (sample_stars !! e.2).
Proof.
  intros e He. simpl in He. apply list_elem_of_singleton in He. subst e.
  split; simpl; eexists; reflexivity.
Qed.

Lemma sample_stars_in_chart :
  forall i s, sample_stars !! i = Some s ->
              in_chart (x_max true) (star_xy true (apparent s)) /\
              in_latitudes (star_xy true (apparent s)).
Proof.
  intros i s Hs. unfold sample_stars in Hs.
  apply lookup_insert_Some in Hs as [[_ <-]|[_ Hs]].
  - unfold in_chart, in_latitudes, lon, lat; simpl; lra.
  - apply lookup_singleton_Some in Hs as [_ <-].
    unfold in_chart, in_latitudes, lon, lat; simpl; lra.
Qed.

(** X12: When every edge names stars of the catalogue, [lines_xy] has one
    line per edge, in the order of the edges, and line [k] joins the
    plotted positions of the two stars of edge [k]. *)
Theorem lines_xy_joins_edge_stars (ecliptic_coords : bool) (stars : gmap Z star)
    (es : list (Z * Z)) :
  (forall e, e ∈ es -> is_Some (stars !! e.1) /\ is_Some (stars !! e.2)) ->
  exists ls,
    lines_xy ecliptic_coords stars es = Some ls /\
    length ls = length es /\
    forall k e, es !! k = Some e ->
      exists sa sb,
        stars !! e.1 = Some sa /\ stars !! e.2 = Some sb /\
        ls !! k = Some (star_xy ecliptic_coords (apparent sa),
                        star_xy ecliptic_coords (apparent sb)).
Proof.
  intros Hin. destruct (lines_xy_Some ecliptic_coords stars es Hin) as [ls [Hls Hrows]].
  exists ls. split; [exact Hls|]. split.
  - symmetry. eapply Forall2_length, Hrows.
  - intros k e He.
    destruct (Forall2_lookup_l _ _ _ _ _ Hrows He) as [l [Hl [sa [sb [Ha [Hb ->]]]]]].
    exists sa, sb. auto.
Qed.

Lemma lines_xy_joins_edge_stars_witness :
  exists ls,
    lines_xy true sample_stars (edges sample_constellations) = Some ls /\
    length ls = length (edges sample_constellations) /\
    forall k e, edges sample_constellations !! k = Some e ->
      exists sa sb,
        sample_stars !! e.1 = Some sa /\ sample_stars !! e.2 = Some sb /\
        ls !! k = Some (star_xy true (apparent sa), star_xy true (apparent sb)).
Proof.
  apply (lines_xy_joins_edge_stars true sample_stars (edges sample_constellations)).
  apply sample_stars_present.
Defined.

(** X13: Building the star layer fails, with a [KeyError], exactly when some
    constellation edge names a star that is not in the catalogue: the
    coordinate lookups of lines 86 and 87 add no failure of their own. *)
Theorem draw_stars_fails_iff_missing_endpoint (ecliptic_coords : bool) (L : R)
    (stars : gmap Z star) (constellations : list (string * list (Z * Z))) :
  draw_stars ecliptic_coords L stars constellations = None
  <-> exists e, e ∈ edges constellations /\
                (stars !! e.1 = None \/ stars !! e.2 = None).
Proof.
  split.
  - intros Hnone. unfold draw_stars in Hnone.
    destruct (inclusion_mask L (magnitudes stars) constellations) as [mask|] eqn:Em.
    + exfalso.
      pose proof (inclusion_mask_Some_inv L _ _ mask Em) as Hin.
      destruct (lines_xy_Some ecliptic_coords stars (edges constellations))
        as [ls [Hls _]].
      * intros e He. destruct (Hin e He) as [H1 H2].
        rewrite !lookup_magnitudes, !fmap_is_Some in H1, H2. now split.
      * simpl in Hnone. rewrite Hls in Hnone. discriminate.
    + apply inclusion_mask_None_inv in Em as [e [He Hmiss]].
      exists e. split; [exact He|].
      rewrite !lookup_magnitudes, !fmap_None in Hmiss. exact Hmiss.
  - intros [e [He Hmiss]]. unfold draw_stars.
    rewrite (inclusion_mask_None L (magnitudes stars) constellations e He);
      [reflexivity|].
    rewrite !lookup_magnitudes, !fmap_None. exact Hmiss.
Qed.

(** X14: The arrays handed to [scatter] are aligned: a star has a plotted
    position iff it has a marker size, and that is iff it is in the
    catalogue with magnitude at most the limit or is an end point of an
    edge. *)
Theorem scatter_points_and_sizes_aligned (ecliptic_coords : bool) (L : R)
    (stars : gmap Z star) (constellations : list (string * list (Z * Z))) :
  (forall e, e ∈ edges constellations ->
             is_Some (stars !! e.1) /\ is_Some (stars !! e.2)) ->
  exists layer,
    draw_stars ecliptic_coords L stars constellations = Some layer /\
    forall i,
      (is_Some (points layer !! i) <-> is_Some (sizes layer !! i)) /\
      (is_Some (points layer !! i)
       <-> exists s, stars !! i = Some s /\
                     (magnitude s <= L \/ edge_endpoint constellations i)).
Proof.
  intros Hin.
  destruct (draw_stars_Some ecliptic_coords L stars constellations Hin)
    as [mask [ls [Hmask [_ [_ Hdraw]]]]].
  eexists. split; [exact Hdraw|]. simpl. intros i.
  assert (Hp : is_Some (scatter_xy ecliptic_coords stars mask !! i)
               <-> exists s, stars !! i = Some s /\ mask !! i = Some true).
  { split.
    - intros [p Hp]. apply lookup_scatter_xy in Hp as [s [Hs [Hm _]]]. eauto.
    - intros [s [Hs Hm]]. eexists. apply lookup_scatter_xy. eauto. }
  assert (Hs : is_Some (marker_size L (magnitudes stars) mask !! i)
               <-> exists s, stars !! i = Some s /\ mask !! i = Some true).
  { split.
    - intros [z Hz]. apply lookup_marker_size in Hz as [m [Hm [Hmk _]]].
      rewrite lookup_magnitudes in Hm. apply fmap_Some in Hm as [s [Hs _]]. eauto.
    - intros [s [Hs Hm]]. eexists. apply lookup_marker_size.
      exists (magnitude s). rewrite lookup_magnitudes, Hs. eauto. }
  split; [rewrite Hp, Hs; reflexivity|].
  rewrite Hp. split.
  - intros [s [Hs' Hm]]. exists s. split; [exact Hs'|].
    rewrite (inclusion_mask_lookup L _ _ mask i Hmask), lookup_magnitudes, Hs' in Hm.
    simpl in Hm. rewrite edge_endpoint_iff.
    destruct (decide _) as [He|He]; [now right|].
    left. injection Hm as Hm. now apply bool_decide_eq_true in Hm.
  - intros [s [Hs' Hor]]. exists s. split; [exact Hs'|].
    rewrite (inclusion_mask_lookup L _ _ mask i Hmask), lookup_magnitudes, Hs'.
    simpl. rewrite edge_endpoint_iff in Hor.
    destruct (decide _) as [He|He]; [reflexivity|].
    f_equal. apply bool_decide_eq_true. tauto.
Qed.

Lemma scatter_points_and_sizes_aligned_witness :
  exists layer,
    draw_stars true 3 sample_stars sample_constellations = Some layer /\
    forall i,
      (is_Some (points layer !! i) <-> is_Some (sizes layer !! i)) /\
      (is_Some (points layer !! i)
       <-> exists s, sample_stars !! i = Some s /\
                     (magnitude s <= 3 \/ edge_endpoint sample_constellations i)).
Proof.
  apply (scatter_points_and_sizes_aligned true 3 sample_stars sample_constellations).
  apply sample_stars_present.
Defined.

(** X15: Every constellation segment that is drawn has a plotted star at one
    of its ends at least: the segmenter moves at most one end of a
    segment, and both stars of an edge are plotted. *)
Theorem segments_end_on_plotted_stars (ecliptic_coords : bool) (L : R)
    (stars : gmap Z star) (constellations : list (string * list (Z * Z))) :
  (forall e, e ∈ edges constellations ->
             is_Some (stars !! e.1) /\ is_Some (stars !! e.2)) ->
  exists layer,
    draw_stars ecliptic_coords L stars constellations = Some layer /\
    forall s, s ∈ segments layer ->
      exists i p, points layer !! i = Some p /\ (p = s.1 \/ p = s.2).
Proof.
  intros Hin.
  destruct (draw_stars_Some ecliptic_coords L stars constellations Hin)
    as [mask [ls [Hmask [_ [Hrows Hdraw]]]]].
  eexists. split; [exact Hdraw|]. simpl. intros s Hs.
  apply elem_of_lines_xy_mod in Hs as [l [Hl Hs]].
  apply list_elem_of_lookup_1 in Hl as [k Hk].
  destruct (Forall2_lookup_r _ _ _ _ _ Hrows Hk) as [e [He [sa [sb [Ha [Hb ->]]]]]].
  apply list_elem_of_lookup_2 in He.
  assert (Hend : forall i, i = e.1 \/ i = e.2 -> mask !! i = Some true).
  { intros i Hi. rewrite (inclusion_mask_lookup L _ _ mask i Hmask).
    rewrite decide_True; [reflexivity|].
    destruct Hi as [-> | ->]; [left; apply elem_of_edges_star1
                              |right; apply elem_of_edges_star2]; now exists e. }
  apply segment_keeps_an_end in Hs as [Hs|Hs]; simpl in Hs.
  - exists e.1, (star_xy ecliptic_coords (apparent sa)). split; [|now left].
    apply lookup_scatter_xy. exists sa. split; [exact Ha|]. split; [|reflexivity].
    apply Hend. now left.
  - exists e.2, (star_xy ecliptic_coords (apparent sb)). split; [|now right].
    apply lookup_scatter_xy. exists sb. split; [exact Hb|]. split; [|reflexivity].
    apply Hend. now right.
Qed.

Lemma segments_end_on_plotted_stars_witness :
  exists layer,
    draw_stars true 3 sample_stars sample_constellations = Some layer /\
    forall s, s ∈ segments layer ->
      exists i p, points layer !! i = Some p /\ (p = s.1 \/ p = s.2).
Proof.
  apply (segments_end_on_plotted_stars true 3 sample_stars sample_constellations).
  apply sample_stars_present.
Defined.

(** X17: End to end: when every edge names stars of the catalogue and every
    star is plotted within the x range of the chart and within the
    latitudes, no constellation segment of the chart spans more than
    half a period in longitude, up to the margin of the distance
    tests. *)
Theorem constellation_segments_span_half_period (ecliptic_coords : bool) (L : R)
    (stars : gmap Z star) (constellations : list (string * list (Z * Z))) :
  (forall e, e ∈ edges constellations ->
             is_Some (stars !! e.1) /\ is_Some (stars !! e.2)) ->
  (forall i s, stars !! i = Some s ->
               in_chart (x_max ecliptic_coords) (star_xy ecliptic_coords (apparent s)) /\
               in_latitudes (star_xy ecliptic_coords (apparent s))) ->
  exists layer,
    draw_stars ecliptic_coords L stars constellations = Some layer /\
    Forall (fun s : line =>
              Rabs (lon s.1 - lon s.2) <= x_max ecliptic_coords / 2 + margin)
           (segments layer).
Proof.
  intros Hin Hrange.
  destruct (draw_stars_Some ecliptic_coords L stars constellations Hin)
    as [mask [ls [_ [_ [Hrows Hdraw]]]]].
  eexists. split; [exact Hdraw|]. simpl.
  eapply Forall_impl;
    [apply SegmenterFacts.lines_xy_mod_difference; [apply x_max_pos|]
    |intros s Hs; apply SegmenterFacts.Rabs_le_iff; unfold margin; lra].
  apply Forall_forall. intros l Hl.
  apply list_elem_of_lookup_1 in Hl as [k Hk].
  destruct (Forall2_lookup_r _ _ _ _ _ Hrows Hk) as [e [_ [sa [sb [Ha [Hb ->]]]]]].
  simpl.
  destruct (Hrange _ _ Ha) as [Ha' _]. destruct (Hrange _ _ Hb) as [Hb' _].
  unfold in_chart in Ha', Hb'. split; assumption.
Qed.

Lemma constellation_segments_span_half_period_witness :
  exists layer,
    draw_stars true 3 sample_stars sample_constellations = Some layer /\
    Forall (fun s : line => Rabs (lon s.1 - lon s.2) <= x_max true / 2 + margin)
           (segments layer).
Proof.
  apply (constellation_segments_span_half_period
           true 3 sample_stars sample_constellations).
  - apply sample_stars_present.
  - apply sample_stars_in_chart.
Defined.

End ChartFacts.

(** ** The curve of the ecliptic and the body layer *)

Module CurveFacts.
Import Geometry Chart.

Lemma length_py_range (start stop : Z) :
  length (py_range start stop) = Z.to_nat (stop - start).
Proof. unfold py_range. now rewrite length_map, length_seq. Qed.

(** Reading a list along all of its indices gives the list back. *)
Lemma nth_along_seq {A : Type} (d : A) (l : list A) :
  (fun i => nth i l d) <$> seq 0 (length l) = l.
Proof.
  apply list_eq. intros i. rewrite list_lookup_fmap.
  destruct (decide (i < length l)%nat) as [Hlt|Hge].
  - rewrite lookup_seq_lt by exact Hlt. simpl.
    destruct (lookup_lt_is_Some_2 l i Hlt) as [x Hx].
    now rewrite Hx, (nth_lookup_Some l i d x Hx).
  - rewrite (lookup_seq_ge 0 (length l) i) by lia. simpl.
    symmetry. apply lookup_ge_None. lia.
Qed.

(** Indices within range are read without [IndexError]. *)
Lemma take_rows_in_range (d : point) (idx_arr : list nat) (line : list point) :
  Forall (fun i => (i < length line)%nat) idx_arr ->
  take_rows idx_arr line = Some ((fun i => nth i line d) <$> idx_arr).
Proof.
  intros H. unfold take_rows. apply mapM_Some.
  induction H as [|i idx Hi _ IH]; simpl; constructor; [|exact IH].
  destruct (lookup_lt_is_Some_2 line i Hi) as [x Hx].
  now rewrite Hx, (nth_lookup_Some line i d x Hx).
Qed.

Section Ephemeris.

Variable observe : R -> string -> Bodies.position.

Lemma length_sun_line (t : R) : length (sun_line observe t) = 380%nat.
Proof. unfold sun_line. rewrite length_map, length_py_range. reflexivity. Qed.

(** X18: In the equatorial frame the ecliptic is drawn through exactly the
    380 daily positions of the Sun from 190 days before [t] to 189 days
    after it, rearranged in nondecreasing right ascension: whatever
    order [np.argsort] picks among equal keys, the curve is a
    permutation of the samples, no point is moved by a period, and the
    x coordinates never decrease along it.  In the ecliptic frame it is
    the horizontal line at latitude 0. *)
Theorem reference_curve_is_sorted_sun_track (t : R) (idx_arr : list nat) :
  is_argsort (lon <$> sun_line observe t) idx_arr ->
  reference_curve observe true t idx_arr = Some (Horizontal 0) /\
  exists pts,
    reference_curve observe false t idx_arr = Some (Curve pts) /\
    pts ≡ₚ sun_line observe t /\
    length pts = 380%nat /\
    forall i j p q, (i <= j)%nat -> pts !! i = Some p -> pts !! j = Some q ->
                    lon p <= lon q.
Proof.
  intros [Hperm Hsorted]. split; [reflexivity|].
  rewrite length_fmap in Hperm.
  set (line := sun_line observe t) in *.
  assert (Hrange : Forall (fun i => (i < length line)%nat) idx_arr).
  { apply Forall_forall. intros i Hi. rewrite Hperm in Hi.
    apply elem_of_seq in Hi. lia. }
  exists ((fun i => nth i line (0, 0)) <$> idx_arr).
  split; [|split; [|split]].
  - unfold reference_curve. fold line.
    now rewrite (take_rows_in_range (0, 0) idx_arr line Hrange).
  - rewrite Hperm. now rewrite nth_along_seq.
  - rewrite length_fmap, Hperm, length_seq. apply length_sun_line.
  - intros i j p q Hij Hp Hq.
    rewrite list_lookup_fmap in Hp, Hq.
    apply fmap_Some in Hp as [a [Ha ->]]. apply fmap_Some in Hq as [b [Hb ->]].
    assert (Hla : (a < length line)%nat).
    { eapply Forall_forall in Hrange; [exact Hrange|].
      eapply list_elem_of_lookup_2, Ha. }
    assert (Hlb : (b < length line)%nat).
    { eapply Forall_forall in Hrange; [exact Hrange|].
      eapply list_elem_of_lookup_2, Hb. }
    destruct (lookup_lt_is_Some_2 line a Hla) as [x Hx].
    destruct (lookup_lt_is_Some_2 line b Hlb) as [y Hy].
    rewrite (nth_lookup_Some line a (0, 0) x Hx), (nth_lookup_Some line b (0, 0) y Hy).
    apply (Hsorted i j a b (lon x) (lon y) Hij Ha Hb);
      rewrite list_lookup_fmap; [now rewrite Hx | now rewrite Hy].
Qed.

(** The other end of an arrow is the marker moved by the motion
    vector. *)
Lemma arrow_end_unfold (ecl : bool) (t : R) (obj : string) :
  Bodies.arrow_end observe ecl t obj
  = padd (Bodies.marker_xy observe ecl t obj) (Bodies.motion_vector observe ecl t obj).
Proof.
  unfold Bodies.arrow_end, padd.
  destruct (Bodies.marker_xy observe ecl t obj) as [x y].
  destruct (Bodies.motion_vector observe ecl t obj) as [dx dy].
  reflexivity.
Qed.

(** X19: The loop over [objs] draws one marker per body, in the order of the
    dictionary and at the projection a star at that apparent position
    gets, and exactly three arrows: for the Sun, Mercury and Venus in
    that order, each between the marker of the body and the marker moved
    by the body's motion vector. *)
Theorem arrows_for_sun_mercury_venus (ecliptic_coords : bool) (t : R) :
  body_arrows observe ecliptic_coords t
  = [ (Bodies.marker_xy observe ecliptic_coords t "sun",
       padd (Bodies.marker_xy observe ecliptic_coords t "sun")
            (Bodies.motion_vector observe ecliptic_coords t "sun"));
      (Bodies.marker_xy observe ecliptic_coords t "mercury",
       padd (Bodies.marker_xy observe ecliptic_coords t "mercury")
            (Bodies.motion_vector observe ecliptic_coords t "mercury"));
      (Bodies.marker_xy observe ecliptic_coords t "venus",
       padd (Bodies.marker_xy observe ecliptic_coords t "venus")
            (Bodies.motion_vector observe ecliptic_coords t "venus")) ] /\
  map fst (body_markers observe ecliptic_coords t) = Bodies.objs /\
  forall obj p, (obj, p) ∈ body_markers observe ecliptic_coords t ->
                p = star_xy ecliptic_coords (observe t obj).
Proof.
  split; [|split].
  - unfold body_arrows, Bodies.objs. simpl.
    rewrite !arrow_end_unfold. reflexivity.
  - reflexivity.
  - intros obj p Hin. unfold body_markers in Hin.
    apply list_elem_of_In, in_map_iff in Hin as [o [[= <- <-] _]].
    unfold Bodies.marker_xy, star_xy. reflexivity.
Qed.

End Ephemeris.

(** With [Chart.receding] the Sun's right ascension falls from day to
    day, so the sorted curve runs through the samples backwards. *)
Lemma reference_curve_is_sorted_sun_track_witness :
  exists pts,
    reference_curve receding false 0 (reverse (seq 0 380)) = Some (Curve pts) /\
    pts ≡ₚ sun_line receding 0 /\
    length pts = 380%nat /\
    forall i j p q, (i <= j)%nat -> pts !! i = Some p -> pts !! j = Some q ->
                    lon p <= lon q.
Proof.
  refine (proj2 (reference_curve_is_sorted_sun_track
                   receding 0 (reverse (seq 0 380)) _)).
  split.
  - rewrite length_fmap, length_sun_line. apply reverse_Permutation.
  - intros i j a b ka kb Hij Ha Hb Hka Hkb.
    assert (Hkey : forall a ka,
               (lon <$> sun_line receding 0) !! a = Some ka ->
               ka = (180 - (0 + IZR (-190 + Z.of_nat a)) / 2) / 15).
    { clear. intros a ka Ha. rewrite list_lookup_fmap in Ha.
      apply fmap_Some in Ha as [p [Hp ->]].
      unfold sun_line, py_range in Hp.
      change (map ?f ?l) with (f <$> l) in Hp.
      rewrite !list_lookup_fmap in Hp.
      apply fmap_Some in Hp as [z [Hz ->]].
      apply fmap_Some in Hz as [k [Hk ->]].
      apply lookup_seq in Hk as [-> _]. reflexivity. }
    apply reverse_lookup_Some in Ha as [Ha Hi].
    apply reverse_lookup_Some in Hb as [Hb Hj].
    rewrite length_seq in Ha, Hb, Hi, Hj.
    apply lookup_seq in Ha as [-> _]. apply lookup_seq in Hb as [-> _].
    rewrite (Hkey _ _ Hka), (Hkey _ _ Hkb).
    assert (Hz : (-190 + Z.of_nat (0 + (380 - S j)) <= -190 + Z.of_nat (0 + (380 - S i)))%Z)
      by lia.
    apply IZR_le in Hz. lra.
Defined.

End CurveFacts.

(** ** The axis *)

Module AxisFacts.
Import Frame.

(** X20: Whatever the selector, the x axis gets thirteen evenly spaced ticks
    that start at 0 and end exactly at the period; the limits run from
    the period down to 0, so the axis is flipped. *)
Theorem xticks_cover_period (v : pyval) :
  exists a,
    frame_setup v = Returned a /\
    xlim a = (period a, 0) /\
    length (xticks a) = 13%nat /\
    forall k z, xticks a !! k = Some z ->
                IZR z = INR k * (period a / 12) /\ 0 <= IZR z <= period a.
Proof.
  assert (E1 : arange 0 361 30
               = [0; 30; 60; 90; 120; 150; 180; 210; 240; 270; 300; 330; 360]%Z)
    by (vm_compute; reflexivity).
  assert (E2 : arange 0 25 2 = [0; 2; 4; 6; 8; 10; 12; 14; 16; 18; 20; 22; 24]%Z)
    by (vm_compute; reflexivity).
  unfold frame_setup. eexists. split; [reflexivity|]. simpl.
  rewrite E1, E2.
  destruct (truthy v); (split; [reflexivity|]); (split; [reflexivity|]);
    intros k z Hk;
    do 13 (destruct k as [|k]; [injection Hk as <-; simpl; lra|]);
    discriminate.
Qed.

End AxisFacts.
